(** * Transfer learning notebook: frozen backbone, trainable head

    A shallow embedding of
    [Deep Learning and Reinforcement Learning/transfer-learning.ipynb].

    The notebook is a straight-line script over the tf.keras 2.x API (its
    recorded output names [keras.src.callbacks.History]).  The script's own
    cells are embedded in [Module Notebook], one definition per cell, with
    the arguments the cells pass.  The framework operations those cells call
    are embedded in [Module Keras] after their documented behaviour: layer
    lists, the [trainable] flag, the batch iterator over a directory, the
    epoch loop of [fit].  Everything numeric (float32 kernels, image decoding,
    pseudo-random draws, the pretrained weight files) is an operation of the
    abstract [Backend] interface and is never unfolded. *)

From Stdlib Require Import ZArith NArith QArith String.
From stdpp Require Import base option list strings gmap pretty.

Local Open Scope string_scope.
Local Open Scope list_scope.
Local Open Scope nat_scope.

(** ** Carriers of the numeric back end *)

Class Carrier : Type := {
  tensor : Type;   (* a float32 array *)
  image : Type;    (* a decoded picture, height x width x channels *)
  scalar : Type;   (* a float32 number: a loss or metric value *)
  rng : Type       (* the state of one pseudo-random generator *)
}.

(** * The framework calls the notebook makes

    tf.keras 2.x as the notebook uses it: [Sequential], [Dense], the
    [applications] constructors, [compile], [ImageDataGenerator] with
    [flow_from_directory], and [fit] on Sequence inputs.  Modelled are the
    structure and the control flow these calls document: the list of
    layers, the [trainable] flag and what it excludes from training, the
    index array and batch slices of the directory iterator, the order of the
    pseudo-random draws, and the epoch loop of [fit], which reads batch 0
    once when its data handler is made, visits each batch of the Sequence at
    most once per epoch and stops the epoch early when the Sequence has fewer
    batches than [steps_per_epoch]. *)

Module Keras.

(** ** Python exceptions raised by the calls the notebook makes *)

Inductive exn : Type :=
| ValueError (msg : string)
| IndexError (msg : string)
| FileNotFoundError (path : string)
| RuntimeError (msg : string)
| ZeroDivisionError.

Section Framework.
Context `{Carrier}.

(** The three global generators the first cell seeds. *)
Record World : Type := mkWorld {
  py_random : rng;   (* Python's [random] module *)
  np_random : rng;   (* [numpy.random] *)
  tf_random : rng    (* TensorFlow's global generator *)
}.

(** Computations that read and advance the generators and may raise. *)
Definition M (A : Type) : Type := World -> exn + (A * World).

Definition raise {A : Type} (e : exn) : M A := fun _ => inl e.

#[global] Instance M_ret : MRet M := fun A a w => inr (a, w).
#[global] Instance M_bind : MBind M := fun A B f m w =>
  match m w with
  | inl e => inl e
  | inr (a, w') => f a w'
  end.

(** ** Layers *)

Inductive Arch : Type := ResNet50 | Xception.

Inductive Pooling : Type := avg | max.

(** The [weights=] argument of an application constructor. *)
Inductive WeightsArg : Type :=
| weights_None
| weights_imagenet
| weights_path (path : string).

Inductive Activation : Type := linear | softmax | sigmoid | relu.

Inductive LayerConfig : Type :=
| Application (arch : Arch) (include_top : bool) (pooling : option Pooling)
    (weights : WeightsArg)
| Dense (units : N) (activation : Activation).

(** A framework variable: a shaped array with its own [trainable] attribute
    (false for the moving statistics of batch normalisation). *)
Record Variable_ : Type := mkVariable {
  var_shape : list N;
  var_value : tensor;
  var_trainable : bool
}.

Record Layer : Type := mkLayer {
  config : LayerConfig;
  trainable : bool;
  variables : list Variable_
}.

(** Output shapes; [None] is an unknown dimension (the batch axis first). *)
Definition Shape : Type := list (option N).

(** Plain stochastic gradient descent, momentum zero as by default; the
    stateful optimizers are outside the model. *)
Inductive Optimizer : Type := SGD (learning_rate : Q).

(** What [compile] records: the optimizer object, and the loss and metric
    identifiers as given. *)
Record Compiled : Type := mkCompiled {
  optimizer : Optimizer;
  loss : string;
  metrics : list string
}.

Record Sequential : Type := mkSequential {
  layers : list Layer;
  compiled : option Compiled
}.

(** Files the notebook reads: image directories (each listed as its class
    subdirectories in sorted order, with the image file names of each) and
    HDF5 weight files (the arrays they store, in layer order). *)
Record Env : Type := mkEnv {
  directories : gmap string (list (string * list string));
  h5_files : gmap string (list tensor)
}.

(** ** The numeric back end

    Operations the framework delegates to compiled kernels, to the image
    library, to the pseudo-random generators and to the model zoo. *)

(** The random parameters drawn for one picture. *)
Record TransformParams : Type := mkTransformParams {
  theta : option scalar;
  tx : option scalar;
  ty : option scalar;
  shear : option scalar;
  zoom : option (scalar * scalar);
  flip_horizontal : bool;
  flip_vertical : bool;
  channel_shift_intensity : option scalar;
  brightness : option scalar
}.

Class Backend : Type := {
  (* generators *)
  py_seed : Z -> rng;
  np_seed : Z -> rng;
  tf_seed : Z -> rng;
  random_init : rng -> list N -> tensor * rng;
  glorot_uniform : rng -> list N -> tensor * rng;
  zeros : list N -> tensor;
  np_permutation : rng -> nat -> list nat * rng;
  np_random_lt_half : rng -> bool * rng;
  np_uniform : rng -> Q -> Q -> scalar * rng;
  py_shuffle : rng -> list nat -> list nat * rng;
  (* pictures *)
  load_img : string -> nat * nat -> image;
  apply_affine_transform :
    option scalar -> option scalar -> option scalar -> option scalar ->
    option (scalar * scalar) -> image -> image;
  apply_channel_shift : scalar -> image -> image;
  flip_axis : nat -> image -> image;
  apply_brightness_shift : scalar -> image -> image;
  rescale_image : Q -> image -> image;
  samplewise_center_image : image -> image;
  samplewise_std_image : image -> image;
  stack_images : list image -> tensor;
  stack_labels : list (list nat) -> tensor;
  (* the model zoo *)
  application_variables : Arch -> bool -> list (list N * bool);
  imagenet_weights : Arch -> bool -> list tensor;
  resnet50_preprocess_input : image -> image;
  xception_preprocess_input : image -> image;
  (* network kernels *)
  application_call :
    Arch -> bool -> option Pooling -> bool -> list tensor -> tensor -> tensor;
  matmul : tensor -> tensor -> tensor;
  bias_add : tensor -> tensor -> tensor;
  activation_apply : Activation -> tensor -> tensor;
  loss_value : string -> tensor -> tensor -> scalar;
  metric_value : string -> tensor -> tensor -> scalar;
  mean_scalar : list scalar -> scalar;
  gradient : string -> Sequential -> tensor -> tensor -> nat -> nat -> tensor;
  moving_update : Sequential -> tensor -> nat -> nat -> tensor;
  sgd_apply : Q -> tensor -> tensor -> tensor
}.

Context `{Backend}.

(** ** Generators *)

Definition tf_initializer (init : rng -> list N -> tensor * rng) (shape : list N)
  : M tensor := fun w =>
  let '(t, r) := init (tf_random w) shape in
  inr (t, mkWorld (py_random w) (np_random w) r).

Definition np_draw {A : Type} (draw : rng -> A * rng) : M A := fun w =>
  let '(a, r) := draw (np_random w) in
  inr (a, mkWorld (py_random w) r (tf_random w)).

Definition py_draw {A : Type} (draw : rng -> A * rng) : M A := fun w =>
  let '(a, r) := draw (py_random w) in
  inr (a, mkWorld r (np_random w) (tf_random w)).

(** [random.seed], [np.random.seed], [tf.random.set_seed]. *)
Definition random_seed (s : Z) : M unit := fun w =>
  inr (tt, mkWorld (py_seed s) (np_random w) (tf_random w)).
Definition np_random_seed (s : Z) : M unit := fun w =>
  inr (tt, mkWorld (py_random w) (np_seed s) (tf_random w)).
Definition tf_random_set_seed (s : Z) : M unit := fun w =>
  inr (tt, mkWorld (py_random w) (np_random w) (tf_seed s)).

(** ** Building layers *)

(** Both architectures end in 2048 feature channels (the notebook's two
    [summary] printouts show output shape (None, 2048)); with the top they
    end in the 1000 ImageNet classes. *)
Definition feature_channels (a : Arch) : N :=
  match a with
  | ResNet50 => 2048
  | Xception => 2048
  end.

Definition application_output_shape (a : Arch) (include_top : bool)
    (pooling : option Pooling) : Shape :=
  if include_top then [None; Some 1000%N]
  else match pooling with
       | None => [None; None; None; Some (feature_channels a)]
       | Some _ => [None; Some (feature_channels a)]
       end.

Definition layer_output_shape (input : option Shape) (l : Layer) : option Shape :=
  match config l with
  | Application a top pool _ => Some (application_output_shape a top pool)
  | Dense units _ =>
      match input with
      | None => None
      | Some shp => Some (removelast shp ++ [Some units])
      end
  end.

Definition output_shape (m : Sequential) : option Shape :=
  foldl layer_output_shape None (layers m).

Definition set_value (v : Variable_) (t : tensor) : Variable_ :=
  mkVariable (var_shape v) t (var_trainable v).

(** [load_weights]: the stored arrays replace the values of the variables,
    one for one. *)
Definition load_weights (stored : list tensor) (vars : list Variable_)
  : M (list Variable_) :=
  if Nat.eqb (length stored) (length vars)
  then mret (zip_with set_value vars stored)
  else raise (ValueError "Layer count mismatch when loading weights from file.").

Definition init_variable (sv : list N * bool) : M Variable_ :=
  t ← tf_initializer random_init sv.1;
  mret (mkVariable sv.1 t sv.2).

(** [ResNet50(...)] and [Xception(...)]: the network is built with freshly
    initialised variables, then the pretrained arrays are loaded over them
    unless [weights] is [None]. *)
Definition application (env : Env) (a : Arch) (include_top : bool)
    (pooling : option Pooling) (weights : WeightsArg) : M Layer :=
  stored ← match weights with
           | weights_None => mret None
           | weights_imagenet => mret (Some (imagenet_weights a include_top))
           | weights_path p =>
               match h5_files env !! p with
               | Some arrays => mret (Some arrays)
               | None => raise (ValueError
                   "The `weights` argument should be either `None`, `imagenet`, or the path to the weights file to be loaded.")
               end
           end;
  fresh ← mapM init_variable (application_variables a include_top);
  vars ← match stored with
         | None => mret fresh
         | Some arrays => load_weights arrays fresh
         end;
  mret (mkLayer (Application a include_top pooling weights) true vars).

(** [Dense(units, activation=...)]: not built until its input is known. *)
Definition dense (units : N) (activation : Activation) : Layer :=
  mkLayer (Dense units activation) true [].

Definition build_dense (input_dim units : N) : M (list Variable_) :=
  kernel ← tf_initializer glorot_uniform [input_dim; units];
  mret [mkVariable [input_dim; units] kernel true;
        mkVariable [units] (zeros [units]) true].

(** ** Sequential models *)

Definition sequential : Sequential := mkSequential [] None.

Definition with_layers (m : Sequential) (ls : list Layer) : Sequential :=
  mkSequential ls (compiled m).

(** [model.add(layer)].  A Dense layer is built as soon as the shape of its
    input is known.  An application takes pictures as input, which no layer
    modelled here puts out, so it can only come first. *)
Definition add (m : Sequential) (l : Layer) : M Sequential :=
  match config l with
  | Application _ _ _ _ =>
      match layers m with
      | [] => mret (with_layers m [l])
      | _ :: _ => raise (ValueError
          "Input of the application is incompatible with the model output.")
      end
  | Dense units _ =>
      match output_shape m with
      | None => mret (with_layers m (layers m ++ [l]))
      | Some shp =>
          match last shp with
          | Some (Some d) =>
              vars ← build_dense d units;
              mret (with_layers m
                      (layers m ++ [mkLayer (config l) (trainable l) vars]))
          | _ => raise (ValueError
              "The last dimension of the inputs to a Dense layer should be defined. Found None.")
          end
      end
  end.

Definition set_layer_trainable (b : bool) (l : Layer) : Layer :=
  mkLayer (config l) b (variables l).

(** [model.layers[i].trainable = b]. *)
Definition set_trainable (i : nat) (b : bool) (m : Sequential) : M Sequential :=
  match layers m !! i with
  | Some _ => mret (with_layers m (alter (set_layer_trainable b) i (layers m)))
  | None => raise (IndexError "list index out of range")
  end.

(** ** Weights and parameter counts *)

Definition trainable_weights (l : Layer) : list Variable_ :=
  if trainable l then filter (fun v => var_trainable v = true) (variables l) else [].

Definition non_trainable_weights (l : Layer) : list Variable_ :=
  if trainable l then filter (fun v => var_trainable v = false) (variables l)
  else variables l.

Definition count_var (v : Variable_) : N := foldr N.mul 1%N (var_shape v).

Definition count_params (vs : list Variable_) : N :=
  foldr (fun v acc => (count_var v + acc)%N) 0%N vs.

Record Summary : Type := mkSummary {
  total_params : N;
  trainable_params : N;
  non_trainable_params : N
}.

(** The three totals [model.summary()] prints. *)
Definition summary (m : Sequential) : Summary :=
  mkSummary
    (count_params (layers m ≫= variables))
    (count_params (layers m ≫= trainable_weights))
    (count_params (layers m ≫= non_trainable_weights)).

(** ** Forward pass *)

Definition layer_call (training : bool) (l : Layer) (x : tensor) : exn + tensor :=
  match config l with
  | Application a top pool _ =>
      inr (application_call a top pool (training && trainable l)
             (var_value <$> variables l) x)
  | Dense _ act =>
      match variables l with
      | [kernel; bias] =>
          inr (activation_apply act
                 (bias_add (matmul x (var_value kernel)) (var_value bias)))
      | _ => inl (ValueError "Dense layer has not been built.")
      end
  end.

Fixpoint call_layers (training : bool) (ls : list Layer) (x : tensor)
  : exn + tensor :=
  match ls with
  | [] => inr x
  | l :: rest =>
      match layer_call training l x with
      | inl e => inl e
      | inr y => call_layers training rest y
      end
  end.

Definition call (training : bool) (m : Sequential) (x : tensor) : exn + tensor :=
  call_layers training (layers m) x.

Definition lift_exn {A : Type} (r : exn + A) : M A := fun w =>
  match r with
  | inl e => inl e
  | inr a => inr (a, w)
  end.

(** ** compile *)

(** [optimizers.get]: the identifier table, restricted to the optimizer the
    model covers; [SGD()] has learning rate 0.01. *)
Definition optimizers_get (identifier : string) : exn + Optimizer :=
  if String.eqb identifier "sgd" then inr (SGD (1 # 100))
  else inl (ValueError "Could not interpret optimizer identifier.").

(** [model.compile(optimizer=..., loss=..., metrics=[...])]. *)
Definition compile (m : Sequential) (optimizer_id loss_id : string)
    (metric_ids : list string) : M Sequential :=
  opt ← lift_exn (optimizers_get optimizer_id);
  mret (mkSequential (layers m) (Some (mkCompiled opt loss_id metric_ids))).

(** ** ImageDataGenerator *)

Record ImageDataGenerator : Type := mkImageDataGenerator {
  featurewise_center : bool;
  samplewise_center : bool;
  featurewise_std_normalization : bool;
  samplewise_std_normalization : bool;
  zca_whitening : bool;
  rotation_range : Q;
  width_shift_range : Q;
  height_shift_range : Q;
  brightness_range : option (Q * Q);
  shear_range : Q;
  zoom_range : Q;
  channel_shift_range : Q;
  horizontal_flip : bool;
  vertical_flip : bool;
  rescale : option Q;
  preprocessing_function : option (image -> image)
}.

(** The constructor's defaults: nothing is normalised and nothing augmented. *)
Definition ImageDataGenerator_defaults : ImageDataGenerator :=
  {| featurewise_center := false;
     samplewise_center := false;
     featurewise_std_normalization := false;
     samplewise_std_normalization := false;
     zca_whitening := false;
     rotation_range := 0;
     width_shift_range := 0;
     height_shift_range := 0;
     brightness_range := None;
     shear_range := 0;
     zoom_range := 0;
     channel_shift_range := 0;
     horizontal_flip := false;
     vertical_flip := false;
     rescale := None;
     preprocessing_function := None |}.

Definition is_zero (q : Q) : bool := Qeq_bool q 0.

(** A symmetric uniform draw, taken only when the range is not zero. *)
Definition uniform_if (range : Q) : M (option scalar) :=
  if is_zero range then mret None
  else s ← np_draw (fun r => np_uniform r (- range) range); mret (Some s).

(** [get_random_transform]: the two flip coins are tossed whether or not the
    flips are enabled. *)
Definition get_random_transform (g : ImageDataGenerator) : M TransformParams :=
  th ← uniform_if (rotation_range g);
  x ← uniform_if (height_shift_range g);
  y ← uniform_if (width_shift_range g);
  sh ← uniform_if (shear_range g);
  zm ← (if is_zero (zoom_range g) then mret None
        else zx ← np_draw (fun r => np_uniform r (1 - zoom_range g) (1 + zoom_range g));
             zy ← np_draw (fun r => np_uniform r (1 - zoom_range g) (1 + zoom_range g));
             mret (Some (zx, zy)));
  coin_h ← np_draw np_random_lt_half;
  coin_v ← np_draw np_random_lt_half;
  ch ← uniform_if (channel_shift_range g);
  br ← match brightness_range g with
       | None => mret None
       | Some (lo, hi) => s ← np_draw (fun r => np_uniform r lo hi); mret (Some s)
       end;
  mret {| theta := th; tx := x; ty := y; shear := sh; zoom := zm;
          flip_horizontal := coin_h && horizontal_flip g;
          flip_vertical := coin_v && vertical_flip g;
          channel_shift_intensity := ch;
          brightness := br |}.

Definition affine_is_identity (p : TransformParams) : bool :=
  match theta p, tx p, ty p, shear p, zoom p with
  | None, None, None, None, None => true
  | _, _, _, _, _ => false
  end.

(** The column axis of a picture is 1 and its row axis 0. *)
Definition img_col_axis : nat := 1.
Definition img_row_axis : nat := 0.

Definition apply_transform (x : image) (p : TransformParams) : image :=
  let x1 := if affine_is_identity p then x
            else apply_affine_transform (theta p) (tx p) (ty p) (shear p) (zoom p) x in
  let x2 := match channel_shift_intensity p with
            | Some c => apply_channel_shift c x1
            | None => x1
            end in
  let x3 := if flip_horizontal p then flip_axis img_col_axis x2 else x2 in
  let x4 := if flip_vertical p then flip_axis img_row_axis x3 else x3 in
  match brightness p with
  | Some b => apply_brightness_shift b x4
  | None => x4
  end.

(** [standardize].  The featurewise statistics are never fitted here, so the
    featurewise flags and ZCA leave the picture as it is (the framework warns
    and skips them). *)
Definition standardize (g : ImageDataGenerator) (x : image) : image :=
  let x1 := match preprocessing_function g with
            | Some f => f x
            | None => x
            end in
  let x2 := match rescale g with
            | Some q => if is_zero q then x1 else rescale_image q x1
            | None => x1
            end in
  let x3 := if samplewise_center g then samplewise_center_image x2 else x2 in
  if samplewise_std_normalization g then samplewise_std_image x3 else x3.

(** ** DirectoryIterator *)

Inductive ClassMode : Type := categorical | binary | sparse.

Record DirectoryIterator : Type := mkDirectoryIterator {
  image_data_generator : ImageDataGenerator;
  directory : string;
  target_size : nat * nat;
  class_mode : ClassMode;
  batch_size : nat;
  shuffle : bool;
  seed_ : option Z;
  class_names : list string;
  samples : list (string * nat);   (* file path and class index *)
  total_batches_seen : nat;
  index_array : option (list nat)
}.

Definition path_join (a b : string) : string := a +:+ "/" +:+ b.

(** The files below one class subdirectory, each with the class's index. *)
Definition class_samples (dir : string) (i : nat) (sub : string * list string)
  : list (string * nat) :=
  (fun f => (path_join (path_join dir sub.1) f, i)) <$> sub.2.

(** [flow_from_directory(directory, target_size=..., batch_size=...,
    class_mode=...)]; shuffling is on by default and no seed is given. *)
Definition flow_from_directory (env : Env) (g : ImageDataGenerator)
    (dir : string) (size : nat * nat) (bs : nat) (mode : ClassMode)
  : M DirectoryIterator :=
  match directories env !! dir with
  | None => raise (FileNotFoundError dir)
  | Some subdirs =>
      mret {| image_data_generator := g;
              directory := dir;
              target_size := size;
              class_mode := mode;
              batch_size := bs;
              shuffle := true;
              seed_ := None;
              class_names := subdirs.*1;
              samples := mjoin (imap (class_samples dir) subdirs);
              total_batches_seen := 0;
              index_array := None |}
  end.

Definition n_samples (it : DirectoryIterator) : nat := length (samples it).

(** [len(iterator)]: the number of batches, the last one possibly short. *)
Definition iterator_len (it : DirectoryIterator) : nat :=
  (n_samples it + batch_size it - 1) / batch_size it.

Definition one_hot (num_classes c : nat) : list nat :=
  (fun k => if Nat.eqb k c then 1 else 0) <$> seq 0 num_classes.

Definition label_of (it : DirectoryIterator) (c : nat) : list nat :=
  match class_mode it with
  | categorical => one_hot (length (class_names it)) c
  | binary | sparse => [c]
  end.

(** One batch: the pictures, their labels, and (as a ghost field) the sample
    indices they were read from. *)
Record Batch : Type := mkBatch {
  batch_indices : list nat;
  batch_x : list image;
  batch_y : list (list nat)
}.

Definition transformed_sample (it : DirectoryIterator) (j : nat)
  : M (image * list nat) :=
  match samples it !! j with
  | None => raise (IndexError "index out of range")
  | Some (path, c) =>
      params ← get_random_transform (image_data_generator it);
      mret (standardize (image_data_generator it)
              (apply_transform (load_img path (target_size it)) params),
            label_of it c)
  end.

Definition set_index_array (it : DirectoryIterator) : M (list nat) :=
  if shuffle it then np_draw (fun r => np_permutation r (n_samples it))
  else mret (seq 0 (n_samples it)).

Definition with_index_state (it : DirectoryIterator) (seen : nat)
    (ia : option (list nat)) : DirectoryIterator :=
  {| image_data_generator := image_data_generator it;
     directory := directory it;
     target_size := target_size it;
     class_mode := class_mode it;
     batch_size := batch_size it;
     shuffle := shuffle it;
     seed_ := seed_ it;
     class_names := class_names it;
     samples := samples it;
     total_batches_seen := seen;
     index_array := ia |}.

(** [iterator[idx]]. *)
Definition getitem (it : DirectoryIterator) (idx : nat)
  : M (Batch * DirectoryIterator) :=
  if Nat.eqb (batch_size it) 0 then raise ZeroDivisionError
  else if negb (idx <? iterator_len it) then
    raise (ValueError "Asked to retrieve an element beyond the length of the Sequence.")
  else
    _ ← match seed_ it with
        | Some s => np_random_seed (s + Z.of_nat (total_batches_seen it))
        | None => mret tt
        end;
    ia ← match index_array it with
         | Some ia => mret ia
         | None => set_index_array it
         end;
    let slice := take (batch_size it) (drop (batch_size it * idx) ia) in
    xys ← mapM (transformed_sample it) slice;
    mret (mkBatch slice xys.*1 xys.*2,
          with_index_state it (S (total_batches_seen it)) (Some ia)).

(** [iterator.on_epoch_end()]. *)
Definition on_epoch_end (it : DirectoryIterator) : M DirectoryIterator :=
  ia ← set_index_array it;
  mret (with_index_state it (total_batches_seen it) (Some ia)).

(** ** One training step and one test step *)

Definition optimizer_apply (o : Optimizer) (w g : tensor) : tensor :=
  match o with
  | SGD lr => sgd_apply lr w g
  end.

(** The new value of variable [j] of layer [i]: a trainable variable takes
    one optimizer step along the gradient of the loss; the other variables of
    a trainable layer (moving statistics) take their training-mode update. *)
Definition update_variable (cfg : Compiled) (m : Sequential) (x y : tensor)
    (i j : nat) (v : Variable_) : Variable_ :=
  if var_trainable v
  then set_value v (optimizer_apply (optimizer cfg) (var_value v)
                      (gradient (loss cfg) m x y i j))
  else set_value v (moving_update m x i j).

(** A layer whose [trainable] flag is off is left as it is: it contributes no
    trainable weights and runs in inference mode. *)
Definition update_layer (cfg : Compiled) (m : Sequential) (x y : tensor)
    (i : nat) (l : Layer) : Layer :=
  if trainable l
  then mkLayer (config l) (trainable l)
         (imap (update_variable cfg m x y i) (variables l))
  else l.

Definition log_names (cfg : Compiled) : list string := "loss" :: metrics cfg.

Definition step_logs (cfg : Compiled) (y y_pred : tensor) : list scalar :=
  loss_value (loss cfg) y y_pred
  :: ((fun name => metric_value name y y_pred) <$> metrics cfg).

Definition train_step (cfg : Compiled) (m : Sequential) (b : Batch)
  : exn + (Sequential * list scalar) :=
  let x := stack_images (batch_x b) in
  let y := stack_labels (batch_y b) in
  match call true m x with
  | inl e => inl e
  | inr y_pred =>
      inr (with_layers m (imap (update_layer cfg m x y) (layers m)),
           step_logs cfg y y_pred)
  end.

Definition test_step (cfg : Compiled) (m : Sequential) (b : Batch)
  : exn + (Sequential * list scalar) :=
  let x := stack_images (batch_x b) in
  let y := stack_labels (batch_y b) in
  match call false m x with
  | inl e => inl e
  | inr y_pred => inr (m, step_logs cfg y y_pred)
  end.

(** ** fit *)

Inductive Event : Type :=
| TrainStep (indices : list nat)
| TestStep (indices : list nat).

(** The state threaded through the steps of one pass over an iterator; the
    trace of steps taken is a ghost field. *)
Record Run : Type := mkRun {
  run_model : Sequential;
  run_iterator : DirectoryIterator;
  run_logs : list (list scalar);
  run_trace : list Event
}.

(** Fetch the batches named by [order], one step on each. *)
Fixpoint run_steps (step : Sequential -> Batch -> exn + (Sequential * list scalar))
    (ev : list nat -> Event) (order : list nat) (st : Run) : M Run :=
  match order with
  | [] => mret st
  | idx :: rest =>
      '(b, it) ← getitem (run_iterator st) idx;
      '(m, logs) ← lift_exn (step (run_model st) b);
      run_steps step ev rest
        (mkRun m it (run_logs st ++ [logs]) (run_trace st ++ [ev (batch_indices b)]))
  end.

(** The batch indices one epoch visits: every batch of the Sequence once, in
    shuffled order when asked, cut to [steps] when that is fewer.  When the
    Sequence holds fewer than [steps] batches the input runs out and the
    epoch is interrupted there. *)
Definition epoch_order (it : DirectoryIterator) (shuffled : bool)
    (steps : option nat) : M (list nat) :=
  order ← (if shuffled then py_draw (fun r => py_shuffle r (seq 0 (iterator_len it)))
           else mret (seq 0 (iterator_len it)));
  mret match steps with
       | Some s => take s order
       | None => order
       end.

Definition insufficient_data (it : DirectoryIterator) (steps : option nat) : bool :=
  match steps with
  | Some s => iterator_len it <? s
  | None => false
  end.

(** The values reported for an epoch: each name with the mean of its step
    values. *)
Definition epoch_logs (prefix : string) (names : list string)
    (steps : list (list scalar)) : list (string * scalar) :=
  imap (fun i name => (prefix +:+ name, mean_scalar (omap (fun l => l !! i) steps)))
       names.

(** [model.evaluate] as [fit] calls it on the validation data. *)
Definition evaluate (cfg : Compiled) (m : Sequential) (val : DirectoryIterator)
    (steps : option nat) : M (Run * list (string * scalar)) :=
  order ← epoch_order val false steps;
  r ← run_steps (test_step cfg) TestStep order (mkRun m val [] []);
  match run_logs r with
  | [] => raise (ValueError "Unexpected result of `test_function` (Empty logs).")
  | _ :: _ =>
      val' ← on_epoch_end (run_iterator r);
      mret (mkRun (run_model r) val' (run_logs r) (run_trace r),
            epoch_logs "val_" (log_names cfg) (run_logs r))
  end.

Record FitState : Type := mkFitState {
  fit_model : Sequential;
  fit_x : DirectoryIterator;
  fit_validation_data : option DirectoryIterator;
  history : list (list (string * scalar));   (* one entry per epoch *)
  trace : list Event
}.

(** The epochs of [fit]; [peeked] tells whether the validation data handler
    exists already (it is created, reading batch 0 once, at the first
    validation and kept). *)
Fixpoint fit_epochs (cfg : Compiled) (shuffled : bool)
    (steps_per_epoch validation_steps : option nat)
    (epochs : nat) (peeked : bool) (st : FitState) : M FitState :=
  match epochs with
  | 0 => mret st
  | S remaining =>
      order ← epoch_order (fit_x st) shuffled steps_per_epoch;
      r ← run_steps (train_step cfg) TrainStep order
            (mkRun (fit_model st) (fit_x st) [] []);
      match run_logs r with
      | [] => raise (ValueError "Unexpected result of `train_function` (Empty logs).")
      | _ :: _ =>
          '(val, val_logs, val_trace) ←
            match fit_validation_data st with
            | None => mret (None, [], [])
            | Some v =>
                v1 ← (if peeked then mret v else '(_, v1) ← getitem v 0; mret v1);
                '(rv, logs) ← evaluate cfg (run_model r) v1 validation_steps;
                mret (Some (run_iterator rv), logs, run_trace rv)
            end;
          x' ← on_epoch_end (run_iterator r);
          let st' :=
            mkFitState (run_model r) x' val
              (history st ++ [epoch_logs "" (log_names cfg) (run_logs r) ++ val_logs])
              (trace st ++ run_trace r ++ val_trace) in
          if insufficient_data (fit_x st) steps_per_epoch then mret st'
          else fit_epochs cfg shuffled steps_per_epoch validation_steps
                 remaining true st'
      end
  end.

(** [model.fit(x, steps_per_epoch=..., validation_data=...,
    validation_steps=...)] on Sequence inputs, with [epochs] and [shuffle]
    as by default (1 and True) unless given.  The data handler reads batch 0
    once when it is created. *)
Definition fit (m : Sequential) (x : DirectoryIterator)
    (steps_per_epoch : option nat) (validation_data : option DirectoryIterator)
    (validation_steps : option nat) (epochs : nat) (shuffled : bool)
  : M FitState :=
  match compiled m with
  | None => raise (RuntimeError
      "You must compile your model before training/testing.")
  | Some cfg =>
      '(_, x1) ← getitem x 0;
      fit_epochs cfg shuffled steps_per_epoch validation_steps epochs false
        (mkFitState m x1 validation_data [] [])
  end.

End Framework.
End Keras.

(** * The notebook, cell by cell *)

Module Notebook.
Import Keras.

Section Cells.
Context `{Backend}.

(** The files present when the notebook runs. *)
Variable env : Env.

(** Cell 1: set random seed / make reproducible. *)
Definition seed : Z := 123.

Definition set_random_seed : M unit :=
  random_seed seed;;
  np_random_seed seed;;
  tf_random_set_seed seed.

(** Cell 2: [create_model_from_resnet].  [num_classes] is the same local
    constant in both constructors. *)
Definition num_classes : N := 2.

Definition resnet_weights_path : string :=
  "./input/resnet50/resnet50_weights_tf_dim_ordering_tf_kernels_notop.h5".

Definition create_model_from_resnet : M Sequential :=
  let my_new_model := sequential in
  backbone ← application env ResNet50 false (Some avg)
               (weights_path resnet_weights_path);
  my_new_model ← add my_new_model backbone;
  my_new_model ← add my_new_model (dense num_classes softmax);
  (* Say not to train first layer (ResNet) model. It is already trained *)
  my_new_model ← set_trainable 0 false my_new_model;
  mret my_new_model.

(** Cell 8: [create_model_from_xception]. *)
Definition create_model_from_xception : M Sequential :=
  let my_new_model := sequential in
  backbone ← application env Xception false (Some avg) weights_imagenet;
  my_new_model ← add my_new_model backbone;
  my_new_model ← add my_new_model (dense num_classes softmax);
  my_new_model ← set_trainable 0 false my_new_model;
  mret my_new_model.

(** Cells 4 and 10: compile the model. *)
Definition compile_cell (my_new_model : Sequential) : M Sequential :=
  compile my_new_model "sgd" "categorical_crossentropy" ["accuracy"].

(** Cells 5 and 9: load the image data.  The two cells differ in their
    first line only, which imports [preprocess_input] from
    [applications.resnet50] in cell 5 and from [applications.xception] in
    cell 9; [a] says which. *)
Definition preprocess_input (a : Arch) : image -> image :=
  match a with
  | ResNet50 => resnet50_preprocess_input
  | Xception => xception_preprocess_input
  end.

Definition image_size : nat := 224.

(** [ImageDataGenerator(preprocessing_function=preprocess_input,
    horizontal_flip=True)]: every other argument keeps its default. *)
Definition data_generator (a : Arch) : ImageDataGenerator :=
  {| featurewise_center := featurewise_center ImageDataGenerator_defaults;
     samplewise_center := samplewise_center ImageDataGenerator_defaults;
     featurewise_std_normalization :=
       featurewise_std_normalization ImageDataGenerator_defaults;
     samplewise_std_normalization :=
       samplewise_std_normalization ImageDataGenerator_defaults;
     zca_whitening := zca_whitening ImageDataGenerator_defaults;
     rotation_range := rotation_range ImageDataGenerator_defaults;
     width_shift_range := width_shift_range ImageDataGenerator_defaults;
     height_shift_range := height_shift_range ImageDataGenerator_defaults;
     brightness_range := brightness_range ImageDataGenerator_defaults;
     shear_range := shear_range ImageDataGenerator_defaults;
     zoom_range := zoom_range ImageDataGenerator_defaults;
     channel_shift_range := channel_shift_range ImageDataGenerator_defaults;
     horizontal_flip := true;
     vertical_flip := vertical_flip ImageDataGenerator_defaults;
     rescale := rescale ImageDataGenerator_defaults;
     preprocessing_function := Some (preprocess_input a) |}.

Definition train_directory : string := "./input/urban-and-rural-photos/train".
Definition val_directory : string := "./input/urban-and-rural-photos/val".

Definition train_generator (a : Arch) : M DirectoryIterator :=
  flow_from_directory env (data_generator a) train_directory
    (image_size, image_size) 12 categorical.

Definition validation_generator (a : Arch) : M DirectoryIterator :=
  flow_from_directory env (data_generator a) val_directory
    (image_size, image_size) 20 categorical.

(** Cells 6 and 11: fit the model; [epochs] and [shuffle] are left at their
    defaults. *)
Definition fit_cell (my_new_model : Sequential)
    (train validation : DirectoryIterator) : M FitState :=
  fit my_new_model train (Some 6) (Some validation) (Some 1) 1 true.

(** What a pipeline leaves behind: the printed summary and the state after
    [fit]. *)
Record Outcome : Type := mkOutcome {
  printed_summary : Summary;
  fitted : FitState
}.

(** Cells 2 to 6, in the order the notebook runs them. *)
Definition resnet_pipeline : M Outcome :=
  my_new_model ← create_model_from_resnet;
  let printed := summary my_new_model in
  my_new_model ← compile_cell my_new_model;
  train ← train_generator ResNet50;
  validation ← validation_generator ResNet50;
  st ← fit_cell my_new_model train validation;
  mret (mkOutcome printed st).

(** Cells 8 to 11: here the generators are made before the model. *)
Definition xception_pipeline : M Outcome :=
  train ← train_generator Xception;
  validation ← validation_generator Xception;
  my_new_model ← create_model_from_xception;
  let printed := summary my_new_model in
  my_new_model ← compile_cell my_new_model;
  st ← fit_cell my_new_model train validation;
  mret (mkOutcome printed st).

Definition notebook : M (Outcome * Outcome) :=
  set_random_seed;;
  first ← resnet_pipeline;
  second ← xception_pipeline;
  mret (first, second).

End Cells.
End Notebook.

(** * A small integer back end

    Arrays, pictures and metric values are integers and every kernel is plain
    integer arithmetic, so that the definitions above can be run. *)

Module IntBackend.
Import Keras.

#[export] Instance int_carrier : Carrier :=
  {| tensor := Z; image := Z; scalar := Z; rng := Z |}.

Definition sum_list (l : list Z) : Z := foldr Z.add 0%Z l.

#[export] Instance int_backend : Backend :=
  {| py_seed := fun s => s;
     np_seed := fun s => (s + 1)%Z;
     tf_seed := fun s => (s + 2)%Z;
     random_init := fun r _ => (r, (r + 1)%Z);
     glorot_uniform := fun r _ => (r, (r + 1)%Z);
     zeros := fun _ => 0%Z;
     np_permutation := fun r n => (rev (seq 0 n), (r + 1)%Z);
     np_random_lt_half := fun r => (Z.even r, (r + 1)%Z);
     np_uniform := fun r _ _ => (r, (r + 1)%Z);
     py_shuffle := fun r l => (rev l, (r + 1)%Z);
     load_img := fun path size =>
       Z.of_nat (String.length path + size.1 + size.2);
     apply_affine_transform := fun _ _ _ _ _ x => (x + 1)%Z;
     apply_channel_shift := fun c x => (x + c)%Z;
     flip_axis := fun _ x => (- x)%Z;
     apply_brightness_shift := fun b x => (x * b)%Z;
     rescale_image := fun _ x => x;
     samplewise_center_image := fun x => (x - 1)%Z;
     samplewise_std_image := fun x => x;
     stack_images := sum_list;
     stack_labels := fun ls => sum_list ((fun l => Z.of_nat (length l)) <$> ls);
     application_variables := fun _ _ =>
       [([7; 7; 3; 64]%N, true); ([64]%N, true); ([64]%N, false)];
     imagenet_weights := fun _ _ => [11; 12; 13]%Z;
     resnet50_preprocess_input := fun x => (x - 104)%Z;
     xception_preprocess_input := fun x => (2 * x - 1)%Z;
     application_call := fun _ _ _ _ ws x => (sum_list ws + x)%Z;
     matmul := Z.mul;
     bias_add := Z.add;
     activation_apply := fun _ x => x;
     loss_value := fun _ y p => Z.abs (y - p);
     metric_value := fun _ y p => if Z.eqb y p then 1%Z else 0%Z;
     mean_scalar := fun l => (sum_list l / Z.of_nat (length l))%Z;
     gradient := fun _ _ x y i j => (x - y + Z.of_nat (i + j))%Z;
     moving_update := fun _ x _ _ => x;
     sgd_apply := fun _ w g => (w - g)%Z |}.

(** The first [k] pictures of a directory, named by their number. *)
Definition pictures (k : nat) : list string :=
  (fun i => pretty i +:+ ".jpg") <$> seq 0 k.

(** An environment with [rural] and [urban] pictures under the two image
    directories and a three-array weight file at the ResNet50 path. *)
Definition env_with (rural_train urban_train rural_val urban_val : nat) : Env :=
  {| directories :=
       <[Notebook.train_directory :=
           [("rural", pictures rural_train); ("urban", pictures urban_train)]]>
       (<[Notebook.val_directory :=
           [("rural", pictures rural_val); ("urban", pictures urban_val)]]> ∅);
     h5_files := <[Notebook.resnet_weights_path := [21; 22; 23]%Z]> ∅ |}.

(** The provided data set: 72 training and 20 validation pictures. *)
Definition env_provided : Env := env_with 36 36 10 10.

(** A training directory of 13 pictures: two batches of at most twelve. *)
Definition env_thirteen : Env := env_with 7 6 4 4.

Definition world0 : World := mkWorld 0%Z 0%Z 0%Z.

End IntBackend.


(** * Properties *)

Module Facts.
Import Keras Notebook.

(** ** Statements *)

Section Statements.
Context `{Backend}.

(** The shape both constructors give a model: the frozen backbone, then the
    two-unit softmax head over 2048 features, nothing compiled yet. *)
Definition transfer_model (a : Arch) (wts : WeightsArg)
    (vars : list Variable_) (kernel bias : tensor) : Sequential :=
  mkSequential
    [mkLayer (Application a false (Some avg) wts) false vars;
     mkLayer (Dense 2 softmax) true
       [mkVariable [2048; 2]%N kernel true; mkVariable [2]%N bias true]]
    None.

(** A model comes from one of the notebook's two constructors. *)
Definition built_by_notebook (env : Env) (m : Sequential) : Prop :=
  exists w w',
    create_model_from_resnet env w = inr (m, w') \/
    create_model_from_xception env w = inr (m, w').

(** What C4 says of a model [m]. *)
Definition two_stage_model (m : Sequential) : Prop :=
  exists a wts backbone_vars W b,
    (a = ResNet50 \/ a = Xception) /\
    layers m =
      [mkLayer (Application a false (Some avg) wts) false backbone_vars;
       mkLayer (Dense num_classes softmax) true [W; b]] /\
    num_classes = 2%N /\
    foldl layer_output_shape None (take 1 (layers m))
      = Some [None; Some 2048%N] /\
    output_shape m = Some [None; Some 2%N] /\
    forall training x,
      call training m x =
      inr (activation_apply softmax
             (bias_add
                (matmul
                   (application_call a false (Some avg) false
                      (var_value <$> backbone_vars) x)
                   (var_value W))
                (var_value b))).

(** What C10 says of a model [m]. *)
Definition head_of_4098_parameters (m : Sequential) : Prop :=
  exists backbone head,
    layers m = [backbone; head] /\
    layer_output_shape None backbone = Some [None; Some 2048%N] /\
    var_shape <$> variables head = [[2048; 2]%N; [2]%N] /\
    count_params (variables head) = (2048 * 2 + 2)%N /\
    (2048 * 2 + 2 = 4098)%N /\
    layers m ≫= trainable_weights = variables head /\
    trainable_params (summary m) = 4098%N.

(** [m'] is [m] but for the values held by the head: same frozen backbone,
    same head configuration and variable shapes. *)
Definition only_head_differs (m m' : Sequential) : Prop :=
  exists backbone head head',
    layers m = [backbone; head] /\
    layers m' = [backbone; head'] /\
    trainable backbone = false /\
    config head' = config head /\
    var_shape <$> variables head' = var_shape <$> variables head.

(** What C1 says of a model [m] fresh from its constructor. *)
Definition frozen_backbone_trainable_head (m : Sequential) : Prop :=
  (exists backbone head kernel bias,
      layers m = [backbone; head] /\
      compiled m = None /\
      trainable backbone = false /\
      trainable_weights backbone = [] /\
      variables head = [kernel; bias] /\
      layers m ≫= trainable_weights = [kernel; bias]) /\
  forall optimizer_id loss_id metric_ids w0 m_c w0',
    compile m optimizer_id loss_id metric_ids w0 = inr (m_c, w0') ->
    (forall cfg m1 b m2 logs,
        only_head_differs m m1 ->
        train_step cfg m1 b = inr (m2, logs) ->
        only_head_differs m m2) /\
    (forall x steps val vsteps epochs shuffled w st w',
        fit m_c x steps val vsteps epochs shuffled w = inr (st, w') ->
        only_head_differs m (fit_model st) /\
        layers (fit_model st) !! 0 = layers m !! 0).

(** What C7 says of the two models. *)
Definition pretrained_backbones (env : Env) (m_resnet m_xception : Sequential)
  : Prop :=
  (exists backbone head,
      layers m_resnet = [backbone; head] /\
      config backbone =
        Application ResNet50 false (Some avg) (weights_path resnet_weights_path) /\
      h5_files env !! resnet_weights_path = Some (var_value <$> variables backbone)) /\
  (exists backbone head,
      layers m_xception = [backbone; head] /\
      config backbone = Application Xception false (Some avg) weights_imagenet /\
      var_value <$> variables backbone = imagenet_weights Xception false) /\
  forall m, m = m_resnet \/ m = m_xception ->
    forall m_c w0 w0' x steps val vsteps epochs shuffled w st w',
      compile_cell m w0 = inr (m_c, w0') ->
      fit m_c x steps val vsteps epochs shuffled w = inr (st, w') ->
      layers (fit_model st) !! 0 = layers m !! 0.

Definition maybe_flip (coin : bool) (x : image) : image :=
  if coin then flip_axis img_col_axis x else x.

(** The index array an iterator holds, if any, permutes its sample numbers. *)
Definition index_ok (it : DirectoryIterator) : Prop :=
  forall ia, index_array it = Some ia -> ia ≡ₚ seq 0 (n_samples it).

Definition batch_slice (it : DirectoryIterator) (ia : list nat) (idx : nat)
  : list nat :=
  take (batch_size it) (drop (batch_size it * idx) ia).

(** The iterator [flow_from_directory] makes over directory [dir], in any
    later state of its batch counter and index array. *)
Definition iterator_over (env : Env) (a : Arch) (dir : string) (bs : nat)
    (subdirs : list (string * list string)) (it : DirectoryIterator) : Prop :=
  directories env !! dir = Some subdirs /\
  image_data_generator it = data_generator a /\
  directory it = dir /\
  target_size it = (224, 224) /\
  class_mode it = categorical /\
  batch_size it = bs /\
  shuffle it = true /\
  seed_ it = None /\
  class_names it = subdirs.*1 /\
  samples it = mjoin (imap (class_samples dir) subdirs).

(** Every picture of a batch was read from a class subdirectory of [dir] at
    224 x 224, flipped left to right or not, passed through
    [preprocess_input], and carries the one-hot vector of its class. *)
Definition batch_from_directory (a : Arch) (dir : string)
    (subdirs : list (string * list string)) (b : Batch) : Prop :=
  length (batch_x b) = length (batch_indices b) /\
  length (batch_y b) = length (batch_indices b) /\
  forall k x y,
    batch_x b !! k = Some x -> batch_y b !! k = Some y ->
    exists c cls files f coin,
      subdirs !! c = Some (cls, files) /\ f ∈ files /\
      x = preprocess_input a
            (maybe_flip coin
               (load_img (path_join (path_join dir cls) f) (224, 224))) /\
      y = one_hot (length subdirs) c.

(** What C5 says of the two generators made for architecture [a]. *)
Definition generators_yield_prepared_pictures (env : Env) (a : Arch)
    (tg vg : DirectoryIterator) : Prop :=
  (exists subdirs,
      directories env !! train_directory = Some subdirs /\
      forall seen ia idx w b it' w',
        getitem (with_index_state tg seen ia) idx w = inr ((b, it'), w') ->
        batch_from_directory a train_directory subdirs b) /\
  (exists subdirs,
      directories env !! val_directory = Some subdirs /\
      forall seen ia idx w b it' w',
        getitem (with_index_state vg seen ia) idx w = inr ((b, it'), w') ->
        batch_from_directory a val_directory subdirs b) /\
  (forall x p w w',
      get_random_transform (data_generator a) w = inr (p, w') ->
      apply_transform x p = x \/ apply_transform x p = flip_axis img_col_axis x) /\
  (forall x, standardize (data_generator a) x = preprocess_input a x).

(** The index array in force once batch 0 has been read. *)
Definition peeked (it : DirectoryIterator) (ia : list nat) : Prop :=
  match index_array it with
  | Some ia0 => ia = ia0
  | None => exists w0 w1, set_index_array it w0 = inr (ia, w1)
  end.

(** A model every step can run on: a backbone, then a built Dense layer. *)
Definition runnable (m : Sequential) : Prop :=
  exists backbone head a top pool wts u act k b,
    layers m = [backbone; head] /\
    config backbone = Application a top pool wts /\
    config head = Dense u act /\
    variables head = [k; b].

(** One epoch, as the trace and the history of [fit] show it: [steps]
    training steps, then one test step, and one history entry holding the
    loss and accuracy of training and of validation. *)
Definition one_epoch_of (steps : nat) (st : FitState) : Prop :=
  exists batches vb,
    trace st = (TrainStep <$> batches) ++ [TestStep vb] /\
    length batches = steps /\
    (fun logs => logs.*1) <$> history st =
      [["loss"; "accuracy"; "val_loss"; "val_accuracy"]].

(** The cells before the fit cell ran: model [m_c] built and compiled,
    generators [tg] and [vg] made for architecture [a]. *)
Definition cells_ran (env : Env) (a : Arch) (m_c : Sequential)
    (tg vg : DirectoryIterator) : Prop :=
  (exists m w0 w0', built_by_notebook env m /\
                    compile_cell m w0 = inr (m_c, w0')) /\
  (exists w1 w1', train_generator env a w1 = inr (tg, w1')) /\
  (exists w2 w2', validation_generator env a w2 = inr (vg, w2')).

(** What the fit cell does on the data it is given. *)
Definition fit_cell_result (a : Arch) (m_c : Sequential)
    (tg vg : DirectoryIterator) (w : World) : Prop :=
  exists st w',
    fit_cell m_c tg vg w = inr (st, w') /\
    one_epoch_of (min 6 (iterator_len tg)) st /\
    iterator_len tg = (n_samples tg + 12 - 1) / 12 /\
    (60 < n_samples tg -> one_epoch_of 6 st).

(** What C9 says of the fit cell on the provided data. *)
Definition epoch_covers_the_data (m_c : Sequential)
    (tg vg : DirectoryIterator) (w : World) : Prop :=
  (6 * 12 = 72 /\ 1 * 20 = 20) /\
  exists st w' batches vb,
    fit_cell m_c tg vg w = inr (st, w') /\
    trace st = (TrainStep <$> batches) ++ [TestStep vb] /\
    length batches = 6 /\
    Forall (fun b => length b = 12) batches /\
    mjoin batches ≡ₚ seq 0 72 /\
    vb ≡ₚ seq 0 20.

(** What C6 says of a compiled model [m_c]. *)
Definition trains_by_sgd_on_crossentropy (m_c : Sequential) : Prop :=
  compiled m_c =
    Some (mkCompiled (SGD (1 # 100)) "categorical_crossentropy" ["accuracy"]) /\
  (forall cfg m1 b m2 logs,
      compiled m_c = Some cfg ->
      train_step cfg m1 b = inr (m2, logs) ->
      let x := stack_images (batch_x b) in
      let y := stack_labels (batch_y b) in
      (forall i l j v,
          layers m1 !! i = Some l -> trainable l = true ->
          variables l !! j = Some v -> var_trainable v = true ->
          exists l2 v2,
            layers m2 !! i = Some l2 /\ variables l2 !! j = Some v2 /\
            var_value v2 =
              sgd_apply (1 # 100) (var_value v)
                (gradient "categorical_crossentropy" m1 x y i j)) /\
      exists y_pred,
        call true m1 x = inr y_pred /\
        logs = [loss_value "categorical_crossentropy" y y_pred;
                metric_value "accuracy" y y_pred]) /\
  (forall cfg m1 b m2 logs,
      compiled m_c = Some cfg ->
      test_step cfg m1 b = inr (m2, logs) ->
      let x := stack_images (batch_x b) in
      let y := stack_labels (batch_y b) in
      exists y_pred,
        call false m1 x = inr y_pred /\
        logs = [loss_value "categorical_crossentropy" y y_pred;
                metric_value "accuracy" y y_pred]) /\
  (forall tg vg w st w',
      fit_cell m_c tg vg w = inr (st, w') ->
      (fun logs => logs.*1) <$> history st =
        [["loss"; "accuracy"; "val_loss"; "val_accuracy"]]).

(** The cells before the fit cell, run one after the other from world [w]. *)
Definition cells_before_fit (env : Env) (a : Arch)
  : M (Sequential * Sequential * DirectoryIterator * DirectoryIterator) :=
  m ← match a with
      | ResNet50 => create_model_from_resnet env
      | Xception => create_model_from_xception env
      end;
  m_c ← compile_cell m;
  tg ← train_generator env a;
  vg ← validation_generator env a;
  mret (m, m_c, tg, vg).

End Statements.

(** What the pseudo-random generators are relied on for: a permutation of
    [0 .. n-1], and a shuffle that rearranges its list. *)
Class RngLaws `{Backend} : Prop := {
  np_permutation_permutes : forall r n, (np_permutation r n).1 ≡ₚ seq 0 n;
  py_shuffle_permutes : forall r l, (py_shuffle r l).1 ≡ₚ l
}.

(** C2 as the claim has it, for every back end and every data: the fit cell
    takes exactly six training steps and one test step. *)
Definition fit_takes_six_steps_whatever_the_data : Prop :=
  forall (C : Carrier) (B : Backend), RngLaws ->
  forall env a m_c tg vg w st w',
    cells_ran env a m_c tg vg ->
    fit_cell m_c tg vg w = inr (st, w') ->
    one_epoch_of 6 st.

Section Monad.
Context `{Carrier}.

Lemma bind_inr {A B : Type} (m : M A) (f : A -> M B) w b w' :
  (m ≫= f) w = inr (b, w') <->
  exists a w1, m w = inr (a, w1) /\ f a w1 = inr (b, w').
Proof.
  unfold mbind, M_bind. split.
  - destruct (m w) as [e | [a w1]]; [discriminate | eauto].
  - intros (a & w1 & -> & Hf). exact Hf.
Qed.

Lemma ret_inr {A : Type} (a b : A) w w' :
  (mret a : M A) w = inr (b, w') <-> a = b /\ w = w'.
Proof.
  unfold mret, M_ret. split; [intros [= -> ->] | intros [-> ->]]; auto.
Qed.

Lemma lift_exn_inr {A : Type} (r : exn + A) w a w' :
  lift_exn r w = inr (a, w') <-> r = inr a /\ w = w'.
Proof.
  unfold lift_exn. destruct r; split; try intros [= -> ->]; auto;
    intros [[=] ?]; subst; auto.
Qed.

Lemma raise_inr {A : Type} (e : exn) w (r : A * World) :
  (raise e : M A) w = inr r -> False.
Proof. discriminate. Qed.

End Monad.

(** Take a successful monadic run apart, one bind at a time. *)
Ltac run_inv H :=
  repeat match type of H with
  | (_ ≫= _) _ = inr _ =>
      let a := fresh "a" in let w := fresh "w" in let Ha := fresh "Hrun" in
      apply bind_inr in H as (a & w & Ha & H)
  | mret _ _ = inr _ => apply ret_inr in H as [? ?]
  | lift_exn _ _ = inr _ => apply lift_exn_inr in H as [? ?]
  | raise _ _ = inr _ => destruct (raise_inr _ _ _ H)
  end.

(** ** What the constructors build *)

Section Constructors.
Context `{Backend}.
Variable env : Env.

Lemma load_weights_values (stored : list tensor) (fresh vars : list Variable_) w w' :
  load_weights stored fresh w = inr (vars, w') ->
  var_value <$> vars = stored /\ w = w'.
Proof.
  unfold load_weights. destruct (Nat.eqb_spec (length stored) (length fresh)) as [Hlen | _].
  - intros Hrun. apply ret_inr in Hrun as [<- ->]. split; [| reflexivity].
    revert fresh Hlen. induction stored as [| t stored IH]; intros [| v fresh] Hlen;
      simplify_eq/=; [reflexivity | f_equal; auto].
  - intros Hrun. destruct (raise_inr _ _ _ Hrun).
Qed.

(** An application built with pretrained weights holds exactly the stored
    arrays, whatever the initialisers drew. *)
Lemma application_pretrained a top pool wts l w w' :
  application env a top pool wts w = inr (l, w') ->
  config l = Application a top pool wts /\ trainable l = true /\
  match wts with
  | weights_None => True
  | weights_imagenet => var_value <$> variables l = imagenet_weights a top
  | weights_path p => h5_files env !! p = Some (var_value <$> variables l)
  end.
Proof.
  unfold application. intros Hrun. run_inv Hrun. subst l. simpl.
  split; [reflexivity |]. split; [reflexivity |].
  destruct wts as [| | p]; [exact I | |].
  - apply ret_inr in Hrun0 as [<- <-].
    apply load_weights_values in Hrun2 as [-> _]. reflexivity.
  - destruct (h5_files env !! p) as [arrays |] eqn:Hfile;
      [| destruct (raise_inr _ _ _ Hrun0)].
    apply ret_inr in Hrun0 as [<- <-].
    apply load_weights_values in Hrun2 as [-> _]. reflexivity.
Qed.

Lemma build_dense_inv d units vars w w' :
  build_dense d units w = inr (vars, w') ->
  exists kernel,
    vars = [mkVariable [d; units] kernel true;
            mkVariable [units] (zeros [units]) true].
Proof.
  unfold build_dense. intros Hrun. run_inv Hrun. subst vars. eauto.
Qed.

(** Freezing layer 0 of a backbone with a two-unit head on top. *)
Lemma backbone_then_head a wts w m w' :
  (backbone ← application env a false (Some avg) wts;
   m1 ← add sequential backbone;
   m2 ← add m1 (dense num_classes softmax);
   m3 ← set_trainable 0 false m2;
   mret m3) w = inr (m, w') ->
  exists vars kernel,
    m = transfer_model a wts vars kernel (zeros [2%N]) /\
    match wts with
    | weights_None => True
    | weights_imagenet => var_value <$> vars = imagenet_weights a false
    | weights_path p => h5_files env !! p = Some (var_value <$> vars)
    end.
Proof.
  intros Hrun. run_inv Hrun. subst.
  pose proof (application_pretrained _ _ _ _ _ _ _ Hrun0) as (Hcfg & Htr & Hstored).
  destruct a0 as [cfg tr vars]. simpl in Hcfg, Htr. subst cfg tr.
  unfold add in Hrun1. simpl in Hrun1. apply ret_inr in Hrun1 as [<- <-].
  unfold add in Hrun2. simpl in Hrun2.
  assert (Hchan : feature_channels a = 2048%N) by (destruct a; reflexivity).
  rewrite Hchan in Hrun2.
  run_inv Hrun2. subst.
  apply build_dense_inv in Hrun as (kernel & ->).
  unfold set_trainable in Hrun3. simpl in Hrun3. apply ret_inr in Hrun3 as [<- _].
  exists vars, kernel. split; [reflexivity | exact Hstored].
Qed.

Lemma create_model_from_resnet_inv w m w' :
  create_model_from_resnet env w = inr (m, w') ->
  exists vars kernel,
    m = transfer_model ResNet50 (weights_path resnet_weights_path)
          vars kernel (zeros [2%N]) /\
    h5_files env !! resnet_weights_path = Some (var_value <$> vars).
Proof. intros Hrun. exact (backbone_then_head _ _ _ _ _ Hrun). Qed.

Lemma create_model_from_xception_inv w m w' :
  create_model_from_xception env w = inr (m, w') ->
  exists vars kernel,
    m = transfer_model Xception weights_imagenet vars kernel (zeros [2%N]) /\
    var_value <$> vars = imagenet_weights Xception false.
Proof. intros Hrun. exact (backbone_then_head _ _ _ _ _ Hrun). Qed.

Lemma built_by_notebook_inv m :
  built_by_notebook env m ->
  exists a wts vars kernel,
    m = transfer_model a wts vars kernel (zeros [2%N]) /\
    ((a = ResNet50 /\ wts = weights_path resnet_weights_path /\
      h5_files env !! resnet_weights_path = Some (var_value <$> vars)) \/
     (a = Xception /\ wts = weights_imagenet /\
      var_value <$> vars = imagenet_weights Xception false)).
Proof.
  intros (w & w' & [Hrun | Hrun]).
  - apply create_model_from_resnet_inv in Hrun as (vars & kernel & -> & Hfile).
    exists ResNet50, (weights_path resnet_weights_path), vars, kernel. auto.
  - apply create_model_from_xception_inv in Hrun as (vars & kernel & -> & Hzoo).
    exists Xception, weights_imagenet, vars, kernel. auto 10.
Qed.

(** C4: every model the notebook builds is the sequential composition of
    exactly two stages, a pretrained backbone with [include_top=False] and
    [pooling='avg'] that yields one feature vector per picture, then one
    Dense layer with [num_classes = 2] units, so that
    [model(x) = softmax (backbone(x) . W + b)]. *)
Theorem model_is_softmax_head_on_backbone (m : Sequential) :
  built_by_notebook env m -> two_stage_model m.
Proof.
  intros Hm. apply built_by_notebook_inv in Hm
    as (a & wts & vars & kernel & -> & Horigin).
  exists a, wts, vars, (mkVariable [2048; 2]%N kernel true),
    (mkVariable [2]%N (zeros [2%N]) true).
  split; [destruct Horigin as [(-> & _) | (-> & _)]; auto |].
  split; [reflexivity |]. split; [reflexivity |].
  split; [destruct Horigin as [(-> & _) | (-> & _)]; reflexivity |].
  split; [reflexivity |].
  intros training x. unfold call. simpl.
  rewrite andb_false_r. reflexivity.
Qed.

(** C10: both constructors give a head of the same shape.  The backbone,
    ResNet50 or Xception, with [pooling='avg'] puts out 2048 features, so the
    Dense layer holds 2048 * 2 + 2 = 4098 parameters, and the trainable
    weights of the whole model are those of the Dense layer alone. *)
Theorem trainable_head_has_4098_parameters (m : Sequential) :
  built_by_notebook env m -> head_of_4098_parameters m.
Proof.
  intros Hm. apply built_by_notebook_inv in Hm
    as (a & wts & vars & kernel & -> & Horigin).
  eexists _, _. split; [reflexivity |].
  split; [destruct Horigin as [(-> & _) | (-> & _)]; reflexivity |].
  repeat split; reflexivity.
Qed.

End Constructors.

(** ** Training leaves frozen layers alone *)

Section Training.
Context `{Backend}.

Lemma update_variable_shape cfg m x y i j v :
  var_shape (update_variable cfg m x y i j v) = var_shape v.
Proof. unfold update_variable. destruct (var_trainable v); reflexivity. Qed.

Lemma update_layer_shapes cfg m x y i l :
  config (update_layer cfg m x y i l) = config l /\
  var_shape <$> variables (update_layer cfg m x y i l) = var_shape <$> variables l.
Proof.
  unfold update_layer. destruct (trainable l); [| auto]. simpl.
  split; [reflexivity |]. apply list_eq. intros j.
  rewrite !list_lookup_fmap, list_lookup_imap.
  destruct (variables l !! j) as [v |]; simpl; [| reflexivity].
  rewrite update_variable_shape. reflexivity.
Qed.

Lemma update_layer_frozen cfg m x y i l :
  trainable l = false -> update_layer cfg m x y i l = l.
Proof. unfold update_layer. intros ->. reflexivity. Qed.

(** One training step changes nothing but the head. *)
Lemma train_step_only_head cfg m m1 b m2 logs :
  only_head_differs m m1 ->
  train_step cfg m1 b = inr (m2, logs) ->
  only_head_differs m m2.
Proof.
  intros (backbone & head & head1 & Hm & Hm1 & Hfrozen & Hcfg & Hshapes) Hstep.
  unfold train_step in Hstep.
  destruct (call true m1 _) as [e | y_pred]; [discriminate |].
  injection Hstep as <- _.
  exists backbone, head,
    (update_layer cfg m1 (stack_images (batch_x b)) (stack_labels (batch_y b)) 1 head1).
  split; [exact Hm |]. split.
  - simpl. rewrite Hm1. simpl. rewrite update_layer_frozen by exact Hfrozen.
    reflexivity.
  - split; [exact Hfrozen |].
    destruct (update_layer_shapes cfg m1 (stack_images (batch_x b))
                (stack_labels (batch_y b)) 1 head1) as [-> ->]. auto.
Qed.

Lemma test_step_same_model cfg m b m' logs :
  test_step cfg m b = inr (m', logs) -> m' = m.
Proof.
  unfold test_step. destruct (call false m _); [discriminate |].
  intros [= <- _]. reflexivity.
Qed.

(** A property of the model that every step keeps holds after the steps. *)
Lemma run_steps_invariant (P : Sequential -> Prop) step ev order st w r w' :
  (forall m b m' logs, P m -> step m b = inr (m', logs) -> P m') ->
  P (run_model st) ->
  run_steps step ev order st w = inr (r, w') ->
  P (run_model r).
Proof.
  intros Hstep. revert st w. induction order as [| idx order IH];
    intros st w HP Hrun; simpl in Hrun.
  - apply ret_inr in Hrun as [<- _]. exact HP.
  - apply bind_inr in Hrun as ([b it] & w1 & _ & Hrun).
    apply bind_inr in Hrun as ([m logs] & w2 & Hm & Hrun).
    apply lift_exn_inr in Hm as [Hm _].
    apply IH in Hrun; [exact Hrun |]. simpl. eauto.
Qed.

Lemma evaluate_same_model cfg m val steps w r logs w' :
  evaluate cfg m val steps w = inr (r, logs, w') -> run_model r = m.
Proof.
  unfold evaluate. intros Hrun.
  apply bind_inr in Hrun as (order & w1 & _ & Hrun).
  apply bind_inr in Hrun as (r0 & w2 & Hsteps & Hrun).
  apply (run_steps_invariant (fun m' => m' = m)) in Hsteps;
    [| intros ? ? ? ? -> Ht; exact (test_step_same_model _ _ _ _ _ Ht)
     | reflexivity].
  destruct (run_logs r0); [destruct (raise_inr _ _ _ Hrun) |].
  apply bind_inr in Hrun as (val' & w3 & _ & Hrun).
  apply ret_inr in Hrun as [[= <- _] _]. simpl. exact Hsteps.
Qed.

Lemma fit_epochs_invariant (P : Sequential -> Prop) cfg shuffled steps vsteps
    epochs peeked st w st' w' :
  (forall m b m' logs, P m -> train_step cfg m b = inr (m', logs) -> P m') ->
  P (fit_model st) ->
  fit_epochs cfg shuffled steps vsteps epochs peeked st w = inr (st', w') ->
  P (fit_model st').
Proof.
  intros Hstep. revert peeked st w.
  induction epochs as [| epochs IH]; intros peeked st w HP Hrun; simpl in Hrun.
  - apply ret_inr in Hrun as [<- _]. exact HP.
  - apply bind_inr in Hrun as (order & w1 & _ & Hrun).
    apply bind_inr in Hrun as (r & w2 & Hsteps & Hrun).
    apply (run_steps_invariant P) in Hsteps; [| exact Hstep | exact HP].
    destruct (run_logs r); [destruct (raise_inr _ _ _ Hrun) |].
    apply bind_inr in Hrun as ([[val val_logs] val_trace] & w3 & _ & Hrun).
    apply bind_inr in Hrun as (x' & w4 & _ & Hrun).
    destruct (insufficient_data _ _).
    + apply ret_inr in Hrun as [<- _]. exact Hsteps.
    + apply IH in Hrun; [exact Hrun | exact Hsteps].
Qed.

(** What holds of the model and is kept by every training step holds of the
    model [fit] returns. *)
Lemma fit_invariant (P : Sequential -> Prop) m x steps val vsteps epochs shuffled
    w st w' :
  (forall cfg m1 b m2 logs,
      compiled m = Some cfg -> P m1 -> train_step cfg m1 b = inr (m2, logs) -> P m2) ->
  P m ->
  fit m x steps val vsteps epochs shuffled w = inr (st, w') ->
  P (fit_model st).
Proof.
  intros Hstep HP Hrun. unfold fit in Hrun.
  destruct (compiled m) as [cfg |]; [| destruct (raise_inr _ _ _ Hrun)].
  apply bind_inr in Hrun as ([b x1] & w1 & _ & Hrun).
  apply (fit_epochs_invariant P) in Hrun; [exact Hrun | eauto | exact HP].
Qed.

Lemma compile_layers m opt_id loss_id metric_ids w m' w' :
  compile m opt_id loss_id metric_ids w = inr (m', w') ->
  layers m' = layers m /\
  exists opt, optimizers_get opt_id = inr opt /\
              compiled m' = Some (mkCompiled opt loss_id metric_ids).
Proof.
  unfold compile. intros Hrun.
  apply bind_inr in Hrun as (opt & w1 & Hopt & Hrun).
  apply lift_exn_inr in Hopt as [Hopt _].
  apply ret_inr in Hrun as [<- _]. simpl. eauto.
Qed.

Lemma transfer_model_only_head a wts vars k b m' :
  layers m' = layers (transfer_model a wts vars k b) ->
  only_head_differs (transfer_model a wts vars k b) m'.
Proof.
  intros Hlayers. eexists _, _, _. split; [reflexivity |].
  split; [exact Hlayers |]. auto.
Qed.

Lemma training_head_only_aux (env : Env) (m : Sequential) :
  built_by_notebook env m -> frozen_backbone_trainable_head m.
Proof.
  intros Hm. apply built_by_notebook_inv in Hm
    as (a & wts & vars & kernel & -> & _).
  split.
  - eexists _, _, _, _. repeat split; reflexivity.
  - intros optimizer_id loss_id metric_ids w0 m_c w0' Hcompile.
    apply compile_layers in Hcompile as (Hlayers & _).
    split; [intros cfg m1 b m2 logs; apply train_step_only_head |].
    intros x steps val vsteps epochs shuffled w st w' Hfit.
    assert (Hkept : only_head_differs
                      (transfer_model a wts vars kernel (zeros [2%N]))
                      (fit_model st)).
    { apply (fit_invariant
               (only_head_differs (transfer_model a wts vars kernel (zeros [2%N])))
               _ _ _ _ _ _ _ _ _ _) in Hfit; [exact Hfit | |].
      - intros cfg m1 b m2 logs _. apply train_step_only_head.
      - apply transfer_model_only_head. exact Hlayers. }
    split; [exact Hkept |].
    destruct Hkept as (backbone & head & head' & Hm & -> & _).
    rewrite Hm. reflexivity.
Qed.

(** C1: in both constructors the backbone, layer 0, is marked non-trainable
    before any training, so the trainable weights of the model are the kernel
    and bias of the Dense layer; every training step, and so every run of
    [fit], returns a model with the very same backbone layer, and differs
    from the constructed model in the values of the head at most. *)
Theorem training_updates_only_the_head (env : Env) (m : Sequential) :
  built_by_notebook env m -> frozen_backbone_trainable_head m.
Proof. exact (training_head_only_aux env m). Qed.

(** C7: the backbone of each constructor holds pretrained values and not the
    initialisers' draws: ResNet50 the arrays stored in the local no-top
    weight file, Xception the arrays of [weights="imagenet"], both built with
    [include_top=False]; whatever the state of the random generators, and
    [fit] hands the same backbone back. *)
Theorem backbones_hold_pretrained_weights (env : Env)
    (w1 w1' w2 w2' : World) (m_resnet m_xception : Sequential) :
  create_model_from_resnet env w1 = inr (m_resnet, w1') ->
  create_model_from_xception env w2 = inr (m_xception, w2') ->
  pretrained_backbones env m_resnet m_xception.
Proof.
  intros Hresnet Hxception.
  assert (Hbuilt : forall m, m = m_resnet \/ m = m_xception ->
                             built_by_notebook env m).
  { intros m [-> | ->]; [exists w1, w1' | exists w2, w2']; auto. }
  apply create_model_from_resnet_inv in Hresnet as (vars1 & k1 & Hm1 & Hfile).
  apply create_model_from_xception_inv in Hxception as (vars2 & k2 & Hm2 & Hzoo).
  split; [| split].
  - subst m_resnet. eexists _, _.
    split; [reflexivity |]. split; [reflexivity | exact Hfile].
  - subst m_xception. eexists _, _.
    split; [reflexivity |]. split; [reflexivity | exact Hzoo].
  - intros m Hm m_c w0 w0' x steps val vsteps epochs shuffled w st w' Hcompile Hfit.
    destruct (training_head_only_aux env m (Hbuilt m Hm)) as [_ Htrain].
    destruct (Htrain _ _ _ _ _ _ Hcompile) as [_ Hfitted].
    exact (proj2 (Hfitted _ _ _ _ _ _ _ _ _ Hfit)).
Qed.

End Training.

(** ** The directory iterator *)

Section Iterators.
Context `{Backend}.

Lemma bind_run {A B : Type} (m : M A) (f : A -> M B) w a w1 :
  m w = inr (a, w1) -> (m ≫= f) w = f a w1.
Proof. unfold mbind, M_bind. intros ->. reflexivity. Qed.

Lemma np_draw_run {A : Type} (draw : rng -> A * rng) w :
  np_draw draw w =
  inr ((draw (np_random w)).1,
       mkWorld (py_random w) (draw (np_random w)).2 (tf_random w)).
Proof. unfold np_draw. destruct (draw (np_random w)). reflexivity. Qed.

Lemma mapM_Forall2 {A B : Type} (f : A -> M B) (l : list A) w l' w' :
  mapM f l w = inr (l', w') ->
  Forall2 (fun a b => exists w0 w1, f a w0 = inr (b, w1)) l l'.
Proof.
  revert w l' w'. induction l as [| x l IH]; intros w l' w' Hrun; simpl in Hrun.
  - apply ret_inr in Hrun as [<- _]. constructor.
  - apply bind_inr in Hrun as (y & w1 & Hy & Hrun).
    apply bind_inr in Hrun as (k & w2 & Hk & Hrun).
    apply ret_inr in Hrun as [<- _]. constructor; eauto.
Qed.

Lemma mapM_total {A B : Type} (f : A -> M B) (l : list A) :
  (forall a, a ∈ l -> forall w, exists b w', f a w = inr (b, w')) ->
  forall w, exists l' w', mapM f l w = inr (l', w').
Proof.
  induction l as [| x l IH]; intros Hf w; simpl.
  - eexists _, _. reflexivity.
  - destruct (Hf x (list_elem_of_here _ _) w) as (y & w1 & Hy).
    destruct (IH (fun a Ha => Hf a (list_elem_of_further _ _ _ Ha)) w1)
      as (k & w2 & Hk).
    exists (y :: k), w2.
    rewrite (bind_run _ _ _ _ _ Hy), (bind_run _ _ _ _ _ Hk). reflexivity.
Qed.

(** The notebook's generator draws the two flip coins and nothing else, and
    only the horizontal coin counts. *)
Lemma notebook_random_transform a w :
  exists coin w',
    get_random_transform (data_generator a) w =
    inr ({| theta := None; tx := None; ty := None; shear := None; zoom := None;
            flip_horizontal := coin; flip_vertical := false;
            channel_shift_intensity := None; brightness := None |}, w').
Proof.
  unfold get_random_transform, data_generator. cbn.
  assert (Hzero : is_zero 0 = true) by reflexivity.
  unfold uniform_if. rewrite Hzero.
  unfold mbind, M_bind, mret, M_ret. rewrite !np_draw_run.
  rewrite andb_true_r, andb_false_r. eexists _, _. reflexivity.
Qed.

Lemma notebook_transformed_sample it a j path c w :
  image_data_generator it = data_generator a ->
  samples it !! j = Some (path, c) ->
  exists coin w',
    transformed_sample it j w =
    inr ((preprocess_input a (maybe_flip coin (load_img path (target_size it))), label_of it c), w').
Proof.
  intros Hgen Hsample. unfold transformed_sample. rewrite Hsample, Hgen.
  destruct (notebook_random_transform a w) as (coin & w' & Hparams).
  exists coin, w'. rewrite (bind_run _ _ _ _ _ Hparams).
  unfold mret, M_ret, apply_transform, standardize, maybe_flip. cbn.
  reflexivity.
Qed.

Lemma notebook_transformed_sample_inv it a j xy w w' :
  image_data_generator it = data_generator a ->
  transformed_sample it j w = inr (xy, w') ->
  exists path c coin,
    samples it !! j = Some (path, c) /\
    xy = (preprocess_input a (maybe_flip coin (load_img path (target_size it))), label_of it c).
Proof.
  intros Hgen Hrun.
  destruct (samples it !! j) as [[path c] |] eqn:Hsample.
  - destruct (notebook_transformed_sample it a j path c w Hgen Hsample)
      as (coin & w1 & Heq).
    rewrite Heq in Hrun. injection Hrun as <- _. eauto.
  - unfold transformed_sample in Hrun. rewrite Hsample in Hrun.
    destruct (raise_inr _ _ _ Hrun).
Qed.

Lemma set_index_array_total it w :
  exists ia w', set_index_array it w = inr (ia, w').
Proof.
  unfold set_index_array. destruct (shuffle it).
  - rewrite np_draw_run. eauto.
  - eexists _, _. reflexivity.
Qed.

Lemma set_index_array_permutes `{!RngLaws} it w ia w' :
  set_index_array it w = inr (ia, w') -> ia ≡ₚ seq 0 (n_samples it).
Proof.
  unfold set_index_array. destruct (shuffle it).
  - rewrite np_draw_run. intros [= <- _]. apply np_permutation_permutes.
  - intros Hrun. apply ret_inr in Hrun as [<- _]. reflexivity.
Qed.

(** What a successful [iterator[idx]] did. *)
Lemma getitem_inv it idx w b it' w' :
  getitem it idx w = inr ((b, it'), w') ->
  batch_size it <> 0 /\ idx < iterator_len it /\
  exists ia xys,
    match index_array it with
    | Some ia0 => ia = ia0
    | None => exists w0 w1, set_index_array it w0 = inr (ia, w1)
    end /\
    it' = with_index_state it (S (total_batches_seen it)) (Some ia) /\
    b = mkBatch (batch_slice it ia idx) xys.*1 xys.*2 /\
    Forall2 (fun j xy => exists w0 w1, transformed_sample it j w0 = inr (xy, w1))
      (batch_slice it ia idx) xys.
Proof.
  unfold getitem. intros Hrun.
  destruct (Nat.eqb_spec (batch_size it) 0) as [| Hbs];
    [destruct (raise_inr _ _ _ Hrun) |].
  destruct (Nat.ltb_spec idx (iterator_len it)) as [Hidx |];
    [| destruct (raise_inr _ _ _ Hrun)].
  cbn in Hrun.
  apply bind_inr in Hrun as (u & w1 & _ & Hrun).
  apply bind_inr in Hrun as (ia & w2 & Hia & Hrun).
  apply bind_inr in Hrun as (xys & w3 & Hxys & Hrun).
  apply ret_inr in Hrun as [[= <- <-] _].
  split; [exact Hbs |]. split; [exact Hidx |].
  exists ia, xys. split; [| split; [reflexivity | split; [reflexivity |]]].
  - destruct (index_array it) as [ia0 |].
    + apply ret_inr in Hia as [-> _]. reflexivity.
    + eauto.
  - exact (mapM_Forall2 _ _ _ _ _ Hxys).
Qed.

Lemma batch_slice_subseteq it ia idx : batch_slice it ia idx ⊆ ia.
Proof.
  unfold batch_slice. etransitivity; [apply subseteq_take | apply subseteq_drop].
Qed.

(** [iterator[idx]] returns whenever the batch exists and the index array in
    force names samples that exist. *)
Lemma getitem_total `{!RngLaws} it a idx w :
  image_data_generator it = data_generator a ->
  batch_size it <> 0 -> idx < iterator_len it -> index_ok it ->
  exists b it' w', getitem it idx w = inr ((b, it'), w').
Proof.
  intros Hgen Hbs Hidx Hok. unfold getitem.
  destruct (Nat.eqb_spec (batch_size it) 0) as [| _]; [contradiction |].
  destruct (Nat.ltb_spec idx (iterator_len it)) as [_ |]; [| lia].
  cbn.
  assert (Hseed : exists w1,
    match seed_ it with
    | Some s => np_random_seed (s + Z.of_nat (total_batches_seen it))
    | None => mret tt
    end w = inr (tt, w1)).
  { destruct (seed_ it); eexists; reflexivity. }
  destruct Hseed as (w1 & Hseed). rewrite (bind_run _ _ _ _ _ Hseed).
  assert (Hia : exists ia w2,
    match index_array it with
    | Some ia => mret ia
    | None => set_index_array it
    end w1 = inr (ia, w2) /\ ia ≡ₚ seq 0 (n_samples it)).
  { destruct (index_array it) as [ia |] eqn:Harr.
    - exists ia, w1. split; [reflexivity | exact (Hok ia Harr)].
    - destruct (set_index_array_total it w1) as (ia & w2 & Hset).
      exists ia, w2. split; [exact Hset |].
      exact (set_index_array_permutes _ _ _ _ Hset). }
  destruct Hia as (ia & w2 & Hia & Hperm). rewrite (bind_run _ _ _ _ _ Hia).
  destruct (mapM_total (transformed_sample it)
              (take (batch_size it) (drop (batch_size it * idx) ia))) with (w := w2)
    as (xys & w3 & Hxys).
  - intros j Hj w0.
    assert (Hin : j ∈ seq 0 (n_samples it)).
    { rewrite <- Hperm. exact (batch_slice_subseteq it ia idx j Hj). }
    apply elem_of_seq in Hin as [_ Hlt].
    destruct (lookup_lt_is_Some_2 (samples it) j Hlt) as [[path c] Hsample].
    destruct (notebook_transformed_sample it a j path c w0 Hgen Hsample)
      as (coin & w' & Hrun).
    eauto.
  - rewrite (bind_run _ _ _ _ _ Hxys). eexists _, _, _. reflexivity.
Qed.

(** ** What the generators yield *)

Lemma samples_from_subdirs dir (subdirs : list (string * list string)) j path c :
  mjoin (imap (class_samples dir) subdirs) !! j = Some (path, c) ->
  exists cls files f,
    subdirs !! c = Some (cls, files) /\ f ∈ files /\
    path = path_join (path_join dir cls) f.
Proof.
  intros Hlookup. apply list_elem_of_lookup_2 in Hlookup.
  apply list_elem_of_join in Hlookup as (l & Hin & Hl).
  apply elem_of_lookup_imap in Hl as (i & [cls files] & -> & Hsub).
  unfold class_samples in Hin. simpl in Hin.
  apply list_elem_of_fmap in Hin as (f & [= -> ->] & Hf).
  exists cls, files, f. auto.
Qed.

Lemma flow_from_directory_over env a dir bs w it w' :
  flow_from_directory env (data_generator a) dir (image_size, image_size) bs
    categorical w = inr (it, w') ->
  exists subdirs,
    iterator_over env a dir bs subdirs it /\ index_array it = None /\ w' = w.
Proof.
  unfold flow_from_directory. intros Hrun.
  destruct (directories env !! dir) as [subdirs |] eqn:Hdir;
    [| destruct (raise_inr _ _ _ Hrun)].
  apply ret_inr in Hrun as [<- <-]. exists subdirs.
  split; [| auto]. unfold iterator_over. simpl. repeat split; auto.
Qed.

Lemma iterator_over_state env a dir bs subdirs it seen ia :
  iterator_over env a dir bs subdirs it ->
  iterator_over env a dir bs subdirs (with_index_state it seen ia).
Proof. unfold iterator_over. simpl. tauto. Qed.

Lemma getitem_batch_from_directory env a dir bs subdirs it idx w b it' w' :
  iterator_over env a dir bs subdirs it ->
  getitem it idx w = inr ((b, it'), w') ->
  batch_from_directory a dir subdirs b.
Proof.
  intros (Hdir & Hgen & _ & Hsize & Hmode & _ & _ & _ & Hnames & Hsamples) Hrun.
  apply getitem_inv in Hrun as (_ & _ & ia & xys & _ & _ & -> & Hxys).
  pose proof (Forall2_length _ _ _ Hxys) as Hlen.
  unfold batch_from_directory. simpl. rewrite !length_fmap.
  split; [auto |]. split; [auto |].
  intros k x y Hx Hy.
  rewrite list_lookup_fmap in Hx. rewrite list_lookup_fmap in Hy.
  destruct (xys !! k) as [[x0 y0] |] eqn:Hk; simplify_eq/=.
  destruct (Forall2_lookup_r _ _ _ _ _ Hxys Hk) as (j & _ & w0 & w1 & Hsample).
  apply (notebook_transformed_sample_inv it a) in Hsample
    as (path & c & coin & Hlookup & [= -> ->]); [| exact Hgen].
  rewrite Hsamples in Hlookup.
  apply samples_from_subdirs in Hlookup as (cls & files & f & Hsub & Hf & ->).
  exists c, cls, files, f, coin.
  split; [exact Hsub |]. split; [exact Hf |].
  rewrite Hsize. split; [reflexivity |].
  unfold label_of. rewrite Hmode, Hnames, length_fmap. reflexivity.
Qed.


End Iterators.

(** ** The epoch loop *)

Section Epochs.
Context `{Backend}.

Lemma with_index_state_same it ia :
  index_array it = Some ia ->
  it = with_index_state it (total_batches_seen it) (Some ia).
Proof. destruct it. simpl. intros ->. reflexivity. Qed.

(** The steps of a run visit the batches named by [order], the iterator's
    index array staying as it is. *)
Lemma run_steps_inv step ev order st w r w' ia :
  index_array (run_iterator st) = Some ia ->
  run_steps step ev order st w = inr (r, w') ->
  run_trace r =
    run_trace st ++ ((fun idx => ev (batch_slice (run_iterator st) ia idx)) <$> order) /\
  length (run_logs r) = length (run_logs st) + length order /\
  exists seen, run_iterator r = with_index_state (run_iterator st) seen (Some ia).
Proof.
  revert st w. induction order as [| idx order IH]; intros st w Hia Hrun;
    simpl in Hrun.
  - apply ret_inr in Hrun as [<- _]. rewrite app_nil_r.
    split; [reflexivity |]. split; [simpl; lia |].
    exists (total_batches_seen (run_iterator st)).
    exact (with_index_state_same _ _ Hia).
  - apply bind_inr in Hrun as ([b it] & w1 & Hget & Hrun).
    apply bind_inr in Hrun as ([m logs] & w2 & _ & Hrun).
    apply getitem_inv in Hget as (_ & _ & ia' & xys & Hia' & -> & -> & _).
    rewrite Hia in Hia'. subst ia'.
    apply IH in Hrun as (Htrace & Hlogs & seen & Hit); [| reflexivity].
    simpl in Htrace, Hlogs, Hit. rewrite Htrace, Hlogs, Hit.
    rewrite length_app. simpl. rewrite <- app_assoc. simpl.
    split; [reflexivity |]. split; [lia |]. eauto.
Qed.

(** A run goes through when every step does and every batch it asks for
    exists. *)
Lemma run_steps_total `{!RngLaws} (P : Sequential -> Prop) step ev a order st w ia :
  (forall m b, P m -> exists m' logs, step m b = inr (m', logs) /\ P m') ->
  P (run_model st) ->
  image_data_generator (run_iterator st) = data_generator a ->
  batch_size (run_iterator st) <> 0 ->
  index_array (run_iterator st) = Some ia ->
  ia ≡ₚ seq 0 (n_samples (run_iterator st)) ->
  Forall (fun idx => idx < iterator_len (run_iterator st)) order ->
  exists r w', run_steps step ev order st w = inr (r, w') /\ P (run_model r).
Proof.
  intros Hstep. revert st w.
  induction order as [| idx order IH]; intros st w HP Hgen Hbs Hia Hperm Hord.
  - simpl. eexists _, _. split; [reflexivity | exact HP].
  - apply Forall_cons in Hord as [Hidx Hord]. simpl.
    destruct (getitem_total (run_iterator st) a idx w Hgen Hbs Hidx)
      as (b & it' & w1 & Hget).
    { intros ia' Hia'. rewrite Hia in Hia'. injection Hia' as <-. exact Hperm. }
    rewrite (bind_run _ _ _ _ _ Hget). cbn beta iota.
    destruct (Hstep (run_model st) b HP) as (m' & logs & Hm' & HP').
    rewrite (bind_run _ _ _ _ _ (proj2 (lift_exn_inr _ w1 _ w1) (conj Hm' eq_refl))).
    cbn beta iota.
    apply getitem_inv in Hget as (_ & _ & ia' & xys & Hia' & -> & _ & _).
    rewrite Hia in Hia'. subst ia'.
    apply IH; simpl; auto.
Qed.

Lemma epoch_order_inv `{!RngLaws} it shuffled steps w order w' :
  epoch_order it shuffled steps w = inr (order, w') ->
  exists sigma,
    sigma ≡ₚ seq 0 (iterator_len it) /\
    (shuffled = false -> sigma = seq 0 (iterator_len it)) /\
    order = match steps with
            | Some s => take s sigma
            | None => sigma
            end.
Proof.
  unfold epoch_order. intros Hrun.
  apply bind_inr in Hrun as (sigma & w1 & Hsigma & Hrun).
  apply ret_inr in Hrun as [<- _]. exists sigma.
  destruct shuffled.
  - unfold py_draw in Hsigma.
    pose proof (py_shuffle_permutes (py_random w) (seq 0 (iterator_len it))) as Hperm.
    destruct (py_shuffle _ _) as [l r]. injection Hsigma as <- _.
    split; [exact Hperm |]. split; [discriminate | reflexivity].
  - apply ret_inr in Hsigma as [<- _]. auto.
Qed.

Lemma epoch_order_total it shuffled steps w :
  exists order w', epoch_order it shuffled steps w = inr (order, w').
Proof.
  unfold epoch_order. destruct shuffled.
  - unfold py_draw, mbind, M_bind, mret, M_ret.
    destruct (py_shuffle _ _). eauto.
  - eexists _, _. reflexivity.
Qed.

Lemma epoch_logs_names prefix names steps :
  (epoch_logs prefix names steps).*1 = (fun name => prefix +:+ name) <$> names.
Proof.
  unfold epoch_logs. apply list_eq. intros i.
  rewrite !list_lookup_fmap, list_lookup_imap.
  destruct (names !! i); reflexivity.
Qed.

Lemma empty_prefix_names (names : list string) :
  (fun name => "" +:+ name) <$> names = names.
Proof.
  induction names as [| n names IH]; [reflexivity |].
  rewrite fmap_cons, IH. reflexivity.
Qed.

Lemma peeked_permutes `{!RngLaws} it ia :
  index_ok it -> peeked it ia -> ia ≡ₚ seq 0 (n_samples it).
Proof.
  unfold peeked, index_ok. destruct (index_array it) as [ia0 |].
  - intros Hok ->. auto.
  - intros _ (w0 & w1 & Hset). exact (set_index_array_permutes _ _ _ _ Hset).
Qed.

Lemma evaluate_inv cfg m v vsteps w rv logs w' ia :
  index_array v = Some ia ->
  evaluate cfg m v vsteps w = inr (rv, logs, w') ->
  exists order,
    (exists wa wb, epoch_order v false vsteps wa = inr (order, wb)) /\
    order <> [] /\
    run_trace rv = (fun idx => TestStep (batch_slice v ia idx)) <$> order /\
    logs.*1 = (fun name => "val_" +:+ name) <$> log_names cfg.
Proof.
  intros Hia Hrun. unfold evaluate in Hrun.
  apply bind_inr in Hrun as (order & w1 & Horder & Hrun).
  apply bind_inr in Hrun as (r & w2 & Hsteps & Hrun).
  apply (run_steps_inv _ _ _ _ _ _ _ ia) in Hsteps as (Htrace & Hlogs & _);
    [| exact Hia].
  simpl in Htrace, Hlogs.
  destruct (run_logs r) as [| l ls] eqn:Hl; [destruct (raise_inr _ _ _ Hrun) |].
  apply bind_inr in Hrun as (val' & w3 & _ & Hrun).
  apply ret_inr in Hrun as [[= <- <-] _].
  exists order. split; [eauto |]. split.
  - intros ->. simpl in Hlogs. discriminate.
  - split; [exact Htrace | apply epoch_logs_names].
Qed.

(** What a successful run of the fit cell did: batch 0 of each generator was
    read once, then one pass of training steps, then one pass of test
    steps, and one entry was added to the history. *)
Lemma fit_cell_inv cfg m tg vg w st w' :
  compiled m = Some cfg ->
  fit_cell m tg vg w = inr (st, w') ->
  exists ia iav order ordv,
    peeked tg ia /\ peeked vg iav /\
    (exists wa wb, epoch_order tg true (Some 6) wa = inr (order, wb)) /\
    (exists wa wb, epoch_order vg false (Some 1) wa = inr (ordv, wb)) /\
    order <> [] /\ ordv <> [] /\
    trace st =
      ((fun idx => TrainStep (batch_slice tg ia idx)) <$> order) ++
      ((fun idx => TestStep (batch_slice vg iav idx)) <$> ordv) /\
    (fun logs => logs.*1) <$> history st =
      [log_names cfg ++ ((fun name => "val_" +:+ name) <$> log_names cfg)].
Proof.
  intros Hcfg Hrun. unfold fit_cell, fit in Hrun. rewrite Hcfg in Hrun.
  apply bind_inr in Hrun as ([b0 x1] & w1 & Hpeek & Hrun).
  apply getitem_inv in Hpeek as (_ & _ & ia & xys & Hia & -> & _ & _).
  simpl in Hrun.
  apply bind_inr in Hrun as (order & w2 & Horder & Hrun).
  apply bind_inr in Hrun as (r & w3 & Hsteps & Hrun).
  apply (run_steps_inv _ _ _ _ _ _ _ ia) in Hsteps as (Htrace & Hlogs & _);
    [| reflexivity].
  simpl in Htrace, Hlogs.
  destruct (run_logs r) as [| l ls] eqn:Hl; [destruct (raise_inr _ _ _ Hrun) |].
  apply bind_inr in Hrun as ([[val val_logs] val_trace] & w4 & Hval & Hrun).
  apply bind_inr in Hval as (v1 & w5 & Hv1 & Hval).
  apply bind_inr in Hv1 as ([bv v1'] & w6 & Hpeekv & Hv1).
  apply ret_inr in Hv1 as [<- <-].
  apply getitem_inv in Hpeekv as (_ & _ & iav & xysv & Hiav & -> & _ & _).
  apply bind_inr in Hval as ([rv logs] & w7 & Heval & Hval).
  apply ret_inr in Hval as [[= <- <- <-] _].
  apply (evaluate_inv _ _ _ _ _ _ _ _ iav) in Heval
    as (ordv & Hordv & Hne & Htracev & Hkeys); [| reflexivity].
  apply bind_inr in Hrun as (x' & w8 & _ & Hrun).
  assert (Hst : st =
    mkFitState (run_model r) x' (Some (run_iterator rv))
      ([] ++ [epoch_logs "" (log_names cfg) (l :: ls) ++ logs])
      ([] ++ run_trace r ++ run_trace rv)).
  { match type of Hrun with
    | (if ?c then _ else _) _ = _ => destruct c
    end; apply ret_inr in Hrun as [<- _]; reflexivity. }
  subst st. cbn [history trace]. rewrite !app_nil_l.
  exists ia, iav, order, ordv.
  split; [exact Hia |]. split; [exact Hiav |].
  split; [eauto |]. split; [exact Hordv |].
  split; [intros ->; simpl in Hlogs; discriminate |].
  split; [exact Hne |]. split.
  - rewrite Htrace, Htracev. reflexivity.
  - rewrite list_fmap_singleton, fmap_app, epoch_logs_names, Hkeys.
    rewrite empty_prefix_names. reflexivity.
Qed.

Lemma runnable_call m training x :
  runnable m -> exists y, call training m x = inr y.
Proof.
  intros (backbone & head & a & top & pool & wts & u & act & k & b
          & Hm & Hb & Hh & Hvars).
  unfold call. rewrite Hm. simpl. unfold layer_call.
  rewrite Hb, Hh, Hvars. eauto.
Qed.

Lemma train_step_runnable cfg m b :
  runnable m ->
  exists m' logs, train_step cfg m b = inr (m', logs) /\ runnable m'.
Proof.
  intros Hm. unfold train_step.
  destruct (runnable_call m true (stack_images (batch_x b)) Hm) as (y & ->).
  eexists _, _. split; [reflexivity |].
  destruct Hm as (backbone & head & a & top & pool & wts & u & act & k & b0
                  & Hm & Hb & Hh & Hvars).
  unfold runnable. simpl. rewrite Hm. simpl.
  eexists _, _, a, top, pool, wts, u, act.
  set (x := stack_images (batch_x b)). set (y0 := stack_labels (batch_y b)).
  destruct (trainable head) eqn:Htr.
  - exists (update_variable cfg m x y0 1 0 k), (update_variable cfg m x y0 1 1 b0).
    split; [reflexivity |].
    split; [rewrite (proj1 (update_layer_shapes _ _ _ _ _ _)); exact Hb |].
    split; [rewrite (proj1 (update_layer_shapes _ _ _ _ _ _)); exact Hh |].
    unfold update_layer. rewrite Htr. simpl. rewrite Hvars. reflexivity.
  - exists k, b0. split; [reflexivity |].
    split; [rewrite (proj1 (update_layer_shapes _ _ _ _ _ _)); exact Hb |].
    rewrite (update_layer_frozen _ _ _ _ _ head Htr). auto.
Qed.

Lemma test_step_runnable cfg m b :
  runnable m ->
  exists m' logs, test_step cfg m b = inr (m', logs) /\ runnable m'.
Proof.
  intros Hm. unfold test_step.
  destruct (runnable_call m false (stack_images (batch_x b)) Hm) as (y & ->).
  eauto.
Qed.

Lemma transfer_model_runnable a wts vars k b m :
  layers m = layers (transfer_model a wts vars k b) -> runnable m.
Proof.
  intros Hm. unfold runnable. rewrite Hm. simpl.
  eexists _, _, a, false, (Some avg), wts, 2%N, softmax, _, _.
  repeat split; reflexivity.
Qed.

Lemma iterator_len_pos it :
  batch_size it <> 0 -> 0 < n_samples it -> 0 < iterator_len it.
Proof.
  intros Hbs Hn. unfold iterator_len. apply Nat.div_str_pos. lia.
Qed.

Lemma on_epoch_end_total it w :
  exists it' w', on_epoch_end it w = inr (it', w').
Proof.
  unfold on_epoch_end.
  destruct (set_index_array_total it w) as (ia & w' & Hset).
  rewrite (bind_run _ _ _ _ _ Hset). eexists _, _. reflexivity.
Qed.

Lemma order_in_range `{!RngLaws} it shuffled steps w order w' :
  epoch_order it shuffled steps w = inr (order, w') ->
  Forall (fun idx => idx < iterator_len it) order /\
  length order = match steps with
                 | Some s => min s (iterator_len it)
                 | None => iterator_len it
                 end.
Proof.
  intros Horder. apply epoch_order_inv in Horder as (sigma & Hperm & _ & ->).
  assert (Hall : Forall (fun idx => idx < iterator_len it) sigma).
  { apply Forall_forall. intros idx Hin. rewrite Hperm in Hin.
    apply elem_of_seq in Hin. lia. }
  assert (Hlen : length sigma = iterator_len it).
  { rewrite Hperm. apply length_seq. }
  destruct steps as [s |].
  - split; [apply Forall_take; exact Hall | rewrite length_take; lia].
  - auto.
Qed.

Lemma evaluate_total `{!RngLaws} cfg m a v ia w :
  runnable m ->
  image_data_generator v = data_generator a ->
  batch_size v <> 0 -> 0 < n_samples v ->
  index_array v = Some ia -> ia ≡ₚ seq 0 (n_samples v) ->
  exists rv logs w', evaluate cfg m v (Some 1) w = inr (rv, logs, w').
Proof.
  intros Hm Hgen Hbs Hn Hia Hperm. unfold evaluate.
  destruct (epoch_order_total v false (Some 1) w) as (order & w1 & Horder).
  rewrite (bind_run _ _ _ _ _ Horder).
  destruct (order_in_range _ _ _ _ _ _ Horder) as (Hrange & Hlen).
  destruct (run_steps_total runnable (test_step cfg) TestStep a order
              (mkRun m v [] []) w1 ia) as (r & w2 & Hsteps & _); auto.
  { intros m0 b. apply test_step_runnable. }
  rewrite (bind_run _ _ _ _ _ Hsteps).
  apply (run_steps_inv _ _ _ _ _ _ _ ia) in Hsteps as (_ & Hlogs & _);
    [| exact Hia].
  pose proof (iterator_len_pos v Hbs Hn) as Hpos.
  destruct (run_logs r) as [| l ls]; [simpl in Hlogs; lia |].
  destruct (on_epoch_end_total (run_iterator r) w2) as (v' & w3 & Hend).
  rewrite (bind_run _ _ _ _ _ Hend). eexists _, _, _. reflexivity.
Qed.

(** The fit cell returns: on a runnable compiled model and two generators
    over directories that are not empty, no call it makes raises. *)
Lemma fit_cell_total `{!RngLaws} cfg m a tg vg w :
  runnable m -> compiled m = Some cfg ->
  image_data_generator tg = data_generator a ->
  image_data_generator vg = data_generator a ->
  batch_size tg <> 0 -> batch_size vg <> 0 ->
  0 < n_samples tg -> 0 < n_samples vg ->
  index_ok tg -> index_ok vg ->
  exists st w', fit_cell m tg vg w = inr (st, w').
Proof.
  intros Hm Hcfg Hgt Hgv Hbt Hbv Hnt Hnv Hokt Hokv.
  unfold fit_cell, fit. rewrite Hcfg.
  destruct (getitem_total tg a 0 w Hgt Hbt (iterator_len_pos tg Hbt Hnt) Hokt)
    as (b0 & x1 & w1 & Hpeek).
  rewrite (bind_run _ _ _ _ _ Hpeek). cbn beta iota.
  apply getitem_inv in Hpeek as (_ & _ & ia & xys & Hia & -> & _ & _).
  pose proof (peeked_permutes tg ia Hokt Hia) as Hperm.
  set (x1 := with_index_state tg (S (total_batches_seen tg)) (Some ia)).
  cbn [fit_epochs fit_x fit_model fit_validation_data history trace].
  destruct (epoch_order_total x1 true (Some 6) w1) as (order & w2 & Horder).
  rewrite (bind_run _ _ _ _ _ Horder).
  destruct (order_in_range _ _ _ _ _ _ Horder) as (Hrange & Hlen).
  destruct (run_steps_total runnable (train_step cfg) TrainStep a order
              (mkRun m x1 [] []) w2 ia) as (r & w3 & Hsteps & Hr); auto.
  { intros m0 b. apply train_step_runnable. }
  rewrite (bind_run _ _ _ _ _ Hsteps).
  apply (run_steps_inv _ _ _ _ _ _ _ ia) in Hsteps as (_ & Hlogs & _);
    [| reflexivity].
  pose proof (iterator_len_pos tg Hbt Hnt) as Hpos.
  change (iterator_len x1) with (iterator_len tg) in Hlen.
  destruct (run_logs r) as [| l ls]; [simpl in Hlogs; lia |].
  destruct (getitem_total vg a 0 w3 Hgv Hbv (iterator_len_pos vg Hbv Hnv) Hokv)
    as (bv & v1 & w4 & Hpeekv).
  unfold mbind, M_bind, mret, M_ret. rewrite Hpeekv. cbn beta iota.
  apply getitem_inv in Hpeekv as (_ & _ & iav & xysv & Hiav & -> & _ & _).
  pose proof (peeked_permutes vg iav Hokv Hiav) as Hpermv.
  destruct (evaluate_total cfg (run_model r) a
              (with_index_state vg (S (total_batches_seen vg)) (Some iav)) iav w4)
    as (rv & logs & w5 & Heval); auto.
  rewrite Heval. cbn beta iota.
  destruct (on_epoch_end_total (run_iterator r) w5) as (x' & w6 & Hend).
  rewrite Hend. cbn beta iota.
  destruct (insufficient_data _ _); eexists _, _; reflexivity.
Qed.

(** Cutting a list into [k] consecutive slices of [bs] and gluing the slices
    back in any order rearranges the list. *)
Lemma slices_in_order {A : Type} (l : list A) bs k :
  mjoin ((fun idx => take bs (drop (bs * idx) l)) <$> seq 0 k) = take (bs * k) l.
Proof.
  induction k as [| k IH].
  - rewrite Nat.mul_0_r. reflexivity.
  - rewrite seq_S, fmap_snoc, join_app, IH. simpl. rewrite app_nil_r.
    rewrite take_take_drop. f_equal. lia.
Qed.

Lemma slices_cover {A : Type} (l : list A) bs k order :
  length l = bs * k -> order ≡ₚ seq 0 k ->
  mjoin ((fun idx => take bs (drop (bs * idx) l)) <$> order) ≡ₚ l /\
  Forall (fun b => length b = bs)
    ((fun idx => take bs (drop (bs * idx) l)) <$> order).
Proof.
  intros Hlen Hperm. split.
  - rewrite Hperm, slices_in_order, take_ge by lia. reflexivity.
  - apply Forall_fmap, Forall_forall. intros idx Hin. simpl.
    rewrite Hperm in Hin. apply elem_of_seq in Hin.
    rewrite length_take, length_drop. nia.
Qed.

End Epochs.

(** ** The fit cell on the notebook's model and generators *)

Section FitCell.
Context `{Backend}.

Lemma cells_ran_inv env a m_c tg vg :
  cells_ran env a m_c tg vg ->
  runnable m_c /\
  compiled m_c =
    Some (mkCompiled (SGD (1 # 100)) "categorical_crossentropy" ["accuracy"]) /\
  (exists subdirs, iterator_over env a train_directory 12 subdirs tg) /\
  (exists subdirs, iterator_over env a val_directory 20 subdirs vg) /\
  index_array tg = None /\ index_array vg = None.
Proof.
  intros ((m & w0 & w0' & Hm & Hcompile) & (w1 & w1' & Htg) & (w2 & w2' & Hvg)).
  apply built_by_notebook_inv in Hm as (a0 & wts & vars & kernel & -> & _).
  apply compile_layers in Hcompile as (Hlayers & opt & Hopt & Hcfg).
  injection Hopt as <-.
  apply flow_from_directory_over in Htg as (st & Ht & Hnone_t & _).
  apply flow_from_directory_over in Hvg as (sv & Hv & Hnone_v & _).
  split; [exact (transfer_model_runnable _ _ _ _ _ _ Hlayers) |].
  split; [exact Hcfg |]. eauto 10.
Qed.

(** The fit cell returns, and what it did is one epoch of
    [min 6 (iterator_len tg)] training steps. *)
Lemma fit_cell_one_epoch `{!RngLaws} env a m_c tg vg w :
  cells_ran env a m_c tg vg ->
  0 < n_samples tg -> 0 < n_samples vg ->
  exists st w' ia iav order,
    fit_cell m_c tg vg w = inr (st, w') /\
    ia ≡ₚ seq 0 (n_samples tg) /\ iav ≡ₚ seq 0 (n_samples vg) /\
    (exists sigma, sigma ≡ₚ seq 0 (iterator_len tg) /\ order = take 6 sigma) /\
    trace st =
      (TrainStep <$> ((fun idx => take 12 (drop (12 * idx) ia)) <$> order)) ++
      [TestStep (take 20 iav)] /\
    (fun logs => logs.*1) <$> history st =
      [["loss"; "accuracy"; "val_loss"; "val_accuracy"]].
Proof.
  intros Hcells Hnt Hnv.
  apply cells_ran_inv in Hcells
    as (Hrun & Hcfg & (st_t & Ht) & (st_v & Hv) & Hnone_t & Hnone_v).
  pose proof Ht as (_ & Hgt & _ & _ & _ & Hbt & _).
  pose proof Hv as (_ & Hgv & _ & _ & _ & Hbv & _).
  assert (Hokt : index_ok tg) by (intros ia; rewrite Hnone_t; discriminate).
  assert (Hokv : index_ok vg) by (intros ia; rewrite Hnone_v; discriminate).
  destruct (fit_cell_total _ m_c a tg vg w Hrun Hcfg Hgt Hgv) as (st & w' & Hfit);
    auto; try (rewrite ?Hbt, ?Hbv; discriminate).
  pose proof (fit_cell_inv _ _ _ _ _ _ _ Hcfg Hfit)
    as (ia & iav & order & ordv & Hia & Hiav & (wa & wb & Horder)
        & (wc & wd & Hordv) & _ & _ & Htrace & Hkeys).
  exists st, w', ia, iav, order.
  split; [exact Hfit |].
  split; [exact (peeked_permutes tg ia Hokt Hia) |].
  split; [exact (peeked_permutes vg iav Hokv Hiav) |].
  apply epoch_order_inv in Horder as (sigma & Hsigma & _ & ->).
  apply epoch_order_inv in Hordv as (sigma_v & _ & Hplain & ->).
  rewrite (Hplain eq_refl) in Htrace.
  assert (Hlenv : 0 < iterator_len vg).
  { apply iterator_len_pos; [rewrite Hbv; discriminate | exact Hnv]. }
  destruct (iterator_len vg) as [| n]; [lia |].
  split; [eauto |]. split; [| exact Hkeys].
  rewrite Htrace. unfold batch_slice. rewrite Hbt, Hbv.
  rewrite <- list_fmap_compose. simpl. rewrite drop_0. reflexivity.
Qed.


(** C9: with the 72 training and 20 validation pictures provided, the six
    training steps of the epoch take twelve pictures each and between them
    take every training picture exactly once (6 * 12 = 72), and the single
    validation step takes all 20 validation pictures at once. *)
Theorem one_epoch_covers_the_provided_data `{!RngLaws}
    (env : Env) (a : Arch) (m_c : Sequential) (tg vg : DirectoryIterator)
    (w : World) :
  cells_ran env a m_c tg vg ->
  n_samples tg = 72 -> n_samples vg = 20 ->
  epoch_covers_the_data m_c tg vg w.
Proof.
  intros Hcells Hnt Hnv. split; [split; reflexivity |].
  pose proof (cells_ran_inv _ _ _ _ _ Hcells)
    as (_ & _ & (st_t & Ht) & _).
  pose proof Ht as (_ & _ & _ & _ & _ & Hbt & _).
  destruct (fit_cell_one_epoch env a m_c tg vg w Hcells) as
    (st & w' & ia & iav & order & Hfit & Hia & Hiav
     & (sigma & Hsigma & ->) & Htrace & _); [lia | lia |].
  assert (Hlen : iterator_len tg = 6).
  { unfold iterator_len. rewrite Hbt, Hnt. reflexivity. }
  rewrite Hlen in Hsigma. rewrite Hnt in Hia. rewrite Hnv in Hiav.
  assert (Hsix : length sigma = 6) by (rewrite Hsigma; reflexivity).
  rewrite take_ge in Htrace by lia.
  assert (Hia_len : length ia = 12 * 6) by (rewrite Hia; reflexivity).
  assert (Hiav_len : length iav = 20) by (rewrite Hiav; reflexivity).
  rewrite (take_ge iav) in Htrace by lia.
  destruct (slices_cover ia 12 6 sigma Hia_len Hsigma) as (Hcover & Hsizes).
  eexists st, w', _, _. split; [exact Hfit |]. split; [exact Htrace |].
  split; [rewrite length_fmap; exact Hsix |].
  split; [exact Hsizes |].
  split; [rewrite Hcover; exact Hia | exact Hiav].
Qed.


Lemma cells_before_fit_ran env a w m m_c tg vg w' :
  cells_before_fit env a w = inr (m, m_c, tg, vg, w') ->
  built_by_notebook env m /\
  (exists w0 w0', compile_cell m w0 = inr (m_c, w0')) /\
  cells_ran env a m_c tg vg.
Proof.
  unfold cells_before_fit. intros Hrun.
  apply bind_inr in Hrun as (m0 & w1 & Hm & Hrun).
  apply bind_inr in Hrun as (mc0 & w2 & Hc & Hrun).
  apply bind_inr in Hrun as (tg0 & w3 & Ht & Hrun).
  apply bind_inr in Hrun as (vg0 & w4 & Hv & Hrun).
  apply ret_inr in Hrun as [[= -> -> -> ->] _].
  assert (Hbuilt : built_by_notebook env m).
  { exists w, w1. destruct a; auto. }
  split; [exact Hbuilt |]. split; [eauto |].
  split; [exists m, w1, w2; auto |]. split; eauto.
Qed.

(** C8: the first cell sets the Python, NumPy and TensorFlow generators from
    the seed 123 before any model is built, any picture loaded or any step
    taken, so whatever states the three generators start in, two runs of the
    notebook over the same files give the same outcome: the same initial
    head weights, the same shuffles, the same flips, the same reports. *)
Theorem two_runs_give_the_same_outcome (env : Env) (w1 w2 : World) :
  seed = 123%Z /\
  set_random_seed w1 =
    inr (tt, mkWorld (py_seed 123) (np_seed 123) (tf_seed 123)) /\
  notebook env w1 = notebook env w2.
Proof.
  split; [reflexivity |]. split; reflexivity.
Qed.

End FitCell.

End Facts.

(** * The notebook run on the integer back end *)

Module Demo.
Import Keras Notebook IntBackend Facts.

#[export] Instance int_rng_laws : RngLaws.
Proof.
  split.
  - intros r n. simpl. symmetry. apply Permutation_rev.
  - intros r l. simpl. symmetry. apply Permutation_rev.
Defined.

Lemma model_is_softmax_head_on_backbone_witness :
  exists m, built_by_notebook env_provided m /\ two_stage_model m.
Proof.
  destruct (cells_before_fit env_provided Xception world0)
    as [e | [[[[m m_c] tg] vg] w']] eqn:Hcells;
    [vm_compute in Hcells; discriminate |].
  destruct (cells_before_fit_ran _ _ _ _ _ _ _ _ Hcells)
    as (Hbuilt & (w0 & w0' & Hcompile) & Hran).
  exists m. split; [exact Hbuilt |].
  exact (model_is_softmax_head_on_backbone env_provided m Hbuilt).
Defined.

Lemma trainable_head_has_4098_parameters_witness :
  exists m, built_by_notebook env_provided m /\ head_of_4098_parameters m.
Proof.
  destruct (cells_before_fit env_provided ResNet50 world0)
    as [e | [[[[m m_c] tg] vg] w']] eqn:Hcells;
    [vm_compute in Hcells; discriminate |].
  destruct (cells_before_fit_ran _ _ _ _ _ _ _ _ Hcells)
    as (Hbuilt & (w0 & w0' & Hcompile) & Hran).
  exists m. split; [exact Hbuilt |].
  exact (trainable_head_has_4098_parameters env_provided m Hbuilt).
Defined.

Lemma training_updates_only_the_head_witness :
  exists m, built_by_notebook env_provided m /\ frozen_backbone_trainable_head m.
Proof.
  destruct (cells_before_fit env_provided ResNet50 world0)
    as [e | [[[[m m_c] tg] vg] w']] eqn:Hcells;
    [vm_compute in Hcells; discriminate |].
  destruct (cells_before_fit_ran _ _ _ _ _ _ _ _ Hcells)
    as (Hbuilt & (w0 & w0' & Hcompile) & Hran).
  exists m. split; [exact Hbuilt |].
  exact (training_updates_only_the_head env_provided m Hbuilt).
Defined.

Lemma backbones_hold_pretrained_weights_witness :
  exists m_resnet m_xception w1 w2,
    create_model_from_resnet env_provided world0 = inr (m_resnet, w1) /\
    create_model_from_xception env_provided world0 = inr (m_xception, w2) /\
    pretrained_backbones env_provided m_resnet m_xception.
Proof.
  destruct (create_model_from_resnet env_provided world0)
    as [e | [m1 w1]] eqn:H1; [vm_compute in H1; discriminate |].
  destruct (create_model_from_xception env_provided world0)
    as [e | [m2 w2]] eqn:H2; [vm_compute in H2; discriminate |].
  exists m1, m2, w1, w2. split; [reflexivity |]. split; [reflexivity |].
  exact (backbones_hold_pretrained_weights env_provided _ _ _ _ m1 m2 H1 H2).
Defined.




Lemma one_epoch_covers_the_provided_data_witness :
  exists m_c tg vg,
    cells_ran env_provided Xception m_c tg vg /\
    n_samples tg = 72 /\ n_samples vg = 20 /\
    epoch_covers_the_data m_c tg vg world0.
Proof.
  destruct (cells_before_fit env_provided Xception world0)
    as [e | [[[[m m_c] tg] vg] w']] eqn:Hcells;
    [vm_compute in Hcells; discriminate |].
  destruct (cells_before_fit_ran _ _ _ _ _ _ _ _ Hcells)
    as (Hbuilt & (w0 & w0' & Hcompile) & Hran).
  assert (Hnt : n_samples tg = 72).
  { vm_compute in Hcells. injection Hcells as <- <- <- <- <-. reflexivity. }
  assert (Hnv : n_samples vg = 20).
  { vm_compute in Hcells. injection Hcells as <- <- <- <- <-. reflexivity. }
  exists m_c, tg, vg. split; [exact Hran |].
  split; [exact Hnt |]. split; [exact Hnv |].
  exact (one_epoch_covers_the_provided_data env_provided Xception
           m_c tg vg world0 Hran Hnt Hnv).
Defined.


(** The provided data: six training steps of twelve pictures, one test step
    of twenty, in both pipelines. *)
Example notebook_on_the_provided_data :
  match notebook env_provided world0 with
  | inr (first, second, _) =>
      (fun e => match e with
                | TrainStep b => (true, length b)
                | TestStep b => (false, length b)
                end) <$> trace (fitted first)
      = [(true, 12); (true, 12); (true, 12); (true, 12); (true, 12); (true, 12);
         (false, 20)] /\
      trace (fitted second) = trace (fitted first) /\
      printed_summary first = mkSummary 13634 4098 9536 /\
      (fun logs => logs.*1) <$> history (fitted first)
      = [["loss"; "accuracy"; "val_loss"; "val_accuracy"]]
  | inl _ => False
  end.
Proof. vm_compute. repeat split; reflexivity. Qed.

(** Thirteen training pictures: the epoch stops after the two batches there
    are. *)
Example notebook_on_thirteen_pictures :
  match notebook env_thirteen world0 with
  | inr (first, _, _) =>
      trace (fitted first)
      = [TrainStep [0]; TrainStep [12; 11; 10; 9; 8; 7; 6; 5; 4; 3; 2; 1];
         TestStep [7; 6; 5; 4; 3; 2; 1; 0]]
  | inl _ => False
  end.
Proof. vm_compute. reflexivity. Qed.

(** An empty training directory: reading batch 0 raises. *)
Example notebook_on_no_pictures :
  notebook (env_with 0 0 4 4) world0
  = inl (ValueError
           "Asked to retrieve an element beyond the length of the Sequence.").
Proof. vm_compute. reflexivity. Qed.

End Demo.

(** * Further properties of the cells

    What the cells show beyond the statements above: the totals of
    [summary], what the generators find and yield, how the cells compose and
    where they raise. *)

Module Further.
Import Keras Notebook Facts.

(** ** Statements *)

Section Statements.
Context `{Backend}.

(** Two models with the same architecture: layer by layer the same
    configuration and [trainable] flag, variable by variable the same shape
    and [trainable] attribute; only the values held may differ. *)
Definition same_variable (v v' : Variable_) : Prop :=
  var_shape v' = var_shape v /\ var_trainable v' = var_trainable v.

Definition same_layer (l l' : Layer) : Prop :=
  config l' = config l /\ trainable l' = trainable l /\
  Forall2 same_variable (variables l) (variables l').

Definition same_architecture (m m' : Sequential) : Prop :=
  Forall2 same_layer (layers m) (layers m').

End Statements.

(** ** The totals of summary *)

Section Summary.
Context `{Backend}.

Lemma count_params_app (vs ws : list Variable_) :
  count_params (vs ++ ws) = (count_params vs + count_params ws)%N.
Proof.
  induction vs as [| v vs IH]; simpl; [reflexivity |].
  rewrite IH. lia.
Qed.

Lemma count_params_split (vs : list Variable_) :
  count_params vs =
  (count_params (filter (fun v => var_trainable v = true) vs) +
   count_params (filter (fun v => var_trainable v = false) vs))%N.
Proof.
  induction vs as [| v vs IH]; [reflexivity |].
  rewrite !filter_cons. simpl. rewrite IH.
  destruct (var_trainable v); simpl; lia.
Qed.

Lemma layer_params_split (l : Layer) :
  count_params (variables l) =
  (count_params (trainable_weights l) + count_params (non_trainable_weights l))%N.
Proof.
  unfold trainable_weights, non_trainable_weights.
  destruct (trainable l); [apply count_params_split | simpl; lia].
Qed.

(** X1: the three totals [summary] prints always add up: every parameter of
    the model is counted as trainable or as non-trainable, none twice. *)
Theorem summary_totals_add_up (m : Sequential) :
  total_params (summary m) =
  (trainable_params (summary m) + non_trainable_params (summary m))%N.
Proof.
  unfold summary. simpl. induction (layers m) as [| l ls IH]; [reflexivity |].
  rewrite !bind_cons, !count_params_app, IH, (layer_params_split l). lia.
Qed.

Lemma same_variables_count (vs vs' : list Variable_) :
  Forall2 same_variable vs vs' ->
  count_params vs' = count_params vs /\
  count_params (filter (fun v => var_trainable v = true) vs')
    = count_params (filter (fun v => var_trainable v = true) vs) /\
  count_params (filter (fun v => var_trainable v = false) vs')
    = count_params (filter (fun v => var_trainable v = false) vs).
Proof.
  induction 1 as [| v v' vs vs' [Hshape Htr] _ (IH1 & IH2 & IH3)];
    [auto |].
  assert (Hcount : count_var v' = count_var v)
    by (unfold count_var; rewrite Hshape; reflexivity).
  rewrite !filter_cons, Htr.
  destruct (var_trainable v); repeat case_decide; try congruence; simpl;
    rewrite ?Hcount, ?IH1, ?IH2, ?IH3; auto.
Qed.

Lemma same_architecture_summary (m m' : Sequential) :
  same_architecture m m' -> summary m' = summary m.
Proof.
  unfold same_architecture, summary.
  induction 1 as [| l l' ls ls' (Hcfg & Htr & Hvars) _ IH]; [reflexivity |].
  injection IH as IH1 IH2 IH3.
  destruct (same_variables_count _ _ Hvars) as (H1 & H2 & H3).
  rewrite !bind_cons, !count_params_app, IH1, IH2, IH3.
  unfold trainable_weights, non_trainable_weights. rewrite Htr.
  destruct (trainable l); rewrite ?H1, ?H2, ?H3; reflexivity.
Qed.

Lemma same_architecture_refl (m : Sequential) : same_architecture m m.
Proof.
  unfold same_architecture. apply Forall_Forall2_diag, Forall_forall.
  intros l _. split; [reflexivity |]. split; [reflexivity |].
  apply Forall_Forall2_diag, Forall_forall. intros v _. split; reflexivity.
Qed.

Lemma same_architecture_trans (m1 m2 m3 : Sequential) :
  same_architecture m1 m2 -> same_architecture m2 m3 -> same_architecture m1 m3.
Proof.
  unfold same_architecture. intros H12 H23.
  eapply Forall2_trans; [| exact H12 | exact H23].
  intros l1 l2 l3 (Hc12 & Ht12 & Hv12) (Hc23 & Ht23 & Hv23).
  split; [congruence |]. split; [congruence |].
  eapply Forall2_trans; [| exact Hv12 | exact Hv23].
  intros v1 v2 v3 [? ?] [? ?]. split; congruence.
Qed.

Lemma update_layer_same cfg m x y i l :
  same_layer l (update_layer cfg m x y i l).
Proof.
  unfold update_layer. destruct (trainable l) eqn:Htr.
  - split; [reflexivity |]. split; [simpl; congruence |]. simpl.
    apply Forall2_same_length_lookup_2; [rewrite length_imap; reflexivity |].
    intros j v v' Hv Hv'. rewrite list_lookup_imap, Hv in Hv'.
    injection Hv' as <-. unfold same_variable, update_variable.
    destruct (var_trainable v) eqn:Hvt; simpl; auto.
  - split; [reflexivity |]. split; [reflexivity |].
    apply Forall_Forall2_diag, Forall_forall. intros v _. split; reflexivity.
Qed.

Lemma train_step_same_architecture cfg m b m' logs :
  train_step cfg m b = inr (m', logs) -> same_architecture m m'.
Proof.
  unfold train_step. destruct (call true m _); [discriminate |].
  intros [= <- _]. unfold same_architecture. simpl.
  apply Forall2_same_length_lookup_2; [rewrite length_imap; reflexivity |].
  intros i l l' Hl Hl'. rewrite list_lookup_imap, Hl in Hl'.
  injection Hl' as <-. apply update_layer_same.
Qed.

Lemma fit_same_architecture (m : Sequential) (x : DirectoryIterator)
    (steps : option nat) (val : option DirectoryIterator) (vsteps : option nat)
    (epochs : nat) (shuffled : bool) (w w' : World) (st : FitState) :
  fit m x steps val vsteps epochs shuffled w = inr (st, w') ->
  same_architecture m (fit_model st) /\
  summary (fit_model st) = summary m /\
  compiled (fit_model st) = compiled m.
Proof.
  intros Hfit.
  assert (Hkept : same_architecture m (fit_model st) /\
                  compiled (fit_model st) = compiled m).
  { apply (fit_invariant
             (fun m' => same_architecture m m' /\ compiled m' = compiled m)
             _ _ _ _ _ _ _ _ _ _) in Hfit; [exact Hfit | |].
    - intros cfg m1 b m2 logs _ [Harch Hc] Hstep. split.
      + eapply same_architecture_trans;
          [exact Harch | exact (train_step_same_architecture _ _ _ _ _ Hstep)].
      + unfold train_step in Hstep. destruct (call true m1 _); [discriminate |].
        injection Hstep as <- _. exact Hc.
    - split; [apply same_architecture_refl | reflexivity]. }
  destruct Hkept as [Harch Hc].
  split; [exact Harch |]. split; [apply same_architecture_summary; exact Harch | exact Hc].
Qed.

(** X3: training never changes the architecture: the model [fit] returns has
    the layers of the model it was given, with the same configurations,
    [trainable] flags and variable shapes, so [summary] prints the same
    totals after training as before, and the model stays compiled as it
    was. *)
Theorem fit_keeps_architecture_and_summary (m : Sequential) (x : DirectoryIterator)
    (steps : option nat) (val : option DirectoryIterator) (vsteps : option nat)
    (epochs : nat) (shuffled : bool) (w w' : World) (st : FitState) :
  fit m x steps val vsteps epochs shuffled w = inr (st, w') ->
  same_architecture m (fit_model st) /\
  summary (fit_model st) = summary m /\
  compiled (fit_model st) = compiled m.
Proof. apply fit_same_architecture. Qed.

Lemma transfer_model_summary a wts vars kernel bias :
  summary (transfer_model a wts vars kernel bias) =
  mkSummary (count_params vars + 4098) 4098 (count_params vars).
Proof.
  unfold summary, transfer_model. cbn [layers].
  rewrite !bind_cons. cbn [variables trainable_weights non_trainable_weights
                            trainable mbind list_bind app].
  rewrite !count_params_app. f_equal; vm_compute count_params; lia.
Qed.

(** X2: for a model fresh from either constructor, [summary] counts every
    parameter of the backbone as non-trainable, whatever the [trainable]
    attribute of its variables, and the total is that count plus the 4098 of
    the head: with the backbone's [n] parameters it prints
    [n + 4098], [4098] and [n]. *)
Theorem summary_counts_the_backbone_as_frozen (env : Env) (m : Sequential) :
  built_by_notebook env m ->
  exists backbone head,
    layers m = [backbone; head] /\
    forall n, count_params (variables backbone) = n ->
      summary m = mkSummary (n + 4098) 4098 n.
Proof.
  intros Hm. apply built_by_notebook_inv in Hm
    as (a & wts & vars & kernel & -> & _).
  eexists _, _. split; [reflexivity |]. intros n Hn. simpl in Hn.
  rewrite transfer_model_summary, Hn. reflexivity.
Qed.

End Summary.

(** ** What the generators find and yield *)

Section Generators.
Context `{Backend}.

Lemma one_hot_lookup n c k :
  k < n -> one_hot n c !! k = Some (if Nat.eqb k c then 1 else 0).
Proof.
  intros Hk. unfold one_hot. rewrite list_lookup_fmap, lookup_seq_lt by exact Hk.
  reflexivity.
Qed.

Lemma indicator_sum c s n :
  sum_list ((fun k => if Nat.eqb k c then 1 else 0) <$> seq s n) =
  if (s <=? c) && (c <? s + n) then 1 else 0.
Proof.
  revert s. induction n as [| n IH]; intros s.
  - simpl. rewrite Nat.add_0_r.
    destruct (Nat.leb_spec s c), (Nat.ltb_spec c s); simpl; lia.
  - simpl. rewrite IH.
    destruct (Nat.eqb_spec s c), (Nat.leb_spec s c), (Nat.leb_spec (S s) c),
      (Nat.ltb_spec c (S s + n)), (Nat.ltb_spec c (s + S n)); simpl; lia.
Qed.

Lemma one_hot_sum n c : c < n -> sum_list (one_hot n c) = 1.
Proof.
  intros Hc. unfold one_hot. rewrite indicator_sum.
  destruct (Nat.leb_spec 0 c), (Nat.ltb_spec c (0 + n)); simpl; lia.
Qed.

Lemma class_samples_lengths dir (subdirs : list (string * list string)) :
  length (mjoin (imap (class_samples dir) subdirs)) =
  sum_list ((fun sub => length sub.2) <$> subdirs).
Proof.
  rewrite length_join. f_equal. apply list_eq. intros i.
  rewrite !list_lookup_fmap, list_lookup_imap.
  destruct (subdirs !! i) as [[cls files] |]; simpl; [| reflexivity].
  unfold class_samples. rewrite length_fmap. reflexivity.
Qed.

Lemma class_samples_complete dir (subdirs : list (string * list string))
    c cls files f :
  subdirs !! c = Some (cls, files) -> f ∈ files ->
  (path_join (path_join dir cls) f, c) ∈ mjoin (imap (class_samples dir) subdirs).
Proof.
  intros Hsub Hf. apply list_elem_of_join.
  exists (class_samples dir c (cls, files)). split.
  - unfold class_samples. simpl. apply list_elem_of_fmap. eauto.
  - apply elem_of_lookup_imap. eauto.
Qed.

(** What [flow_from_directory] finds under a directory listed as [subdirs]. *)
Definition found_under (dir : string) (subdirs : list (string * list string))
    (it : DirectoryIterator) : Prop :=
  n_samples it = sum_list ((fun sub => length sub.2) <$> subdirs) /\
  class_names it = subdirs.*1 /\
  index_array it = None /\
  (forall j path c, samples it !! j = Some (path, c) ->
     exists cls files f,
       subdirs !! c = Some (cls, files) /\ f ∈ files /\
       path = path_join (path_join dir cls) f) /\
  (forall c cls files f,
     subdirs !! c = Some (cls, files) -> f ∈ files ->
     (path_join (path_join dir cls) f, c) ∈ samples it).

Lemma flow_from_directory_found env g dir size bs mode w :
  match directories env !! dir with
  | None => flow_from_directory env g dir size bs mode w = inl (FileNotFoundError dir)
  | Some subdirs =>
      exists it, flow_from_directory env g dir size bs mode w = inr (it, w) /\
                 found_under dir subdirs it
  end.
Proof.
  unfold flow_from_directory. destruct (directories env !! dir) as [subdirs |];
    [| reflexivity].
  eexists. split; [reflexivity |]. unfold found_under, n_samples. simpl.
  split; [apply class_samples_lengths |]. split; [reflexivity |].
  split; [reflexivity |]. split.
  - intros j path c. apply samples_from_subdirs.
  - intros c cls files f. apply class_samples_complete.
Qed.

(** X4: each generator cell raises [FileNotFoundError] exactly when its
    directory is missing; otherwise it draws no random number and finds the
    pictures of every class subdirectory, each with the index of its class:
    as many samples as the subdirectories hold files, every file among
    them, and nothing else. *)
Theorem generators_find_every_picture (env : Env) (a : Arch) (w : World) :
  match directories env !! train_directory with
  | None => train_generator env a w = inl (FileNotFoundError train_directory)
  | Some subdirs =>
      exists tg, train_generator env a w = inr (tg, w) /\
                 found_under train_directory subdirs tg
  end /\
  match directories env !! val_directory with
  | None => validation_generator env a w = inl (FileNotFoundError val_directory)
  | Some subdirs =>
      exists vg, validation_generator env a w = inr (vg, w) /\
                 found_under val_directory subdirs vg
  end.
Proof.
  split; apply flow_from_directory_found.
Qed.

Lemma batch_start_in_range (n bs idx : nat) :
  bs <> 0 -> idx < (n + bs - 1) / bs -> bs * idx < n.
Proof.
  intros Hbs Hidx.
  pose proof (Nat.Div0.mul_div_le (n + bs - 1) bs) as Hle. nia.
Qed.

(** The pictures of a batch: as many as the batch size, or what is left of
    the samples for the last batch; never none. *)
Lemma getitem_batch_length `{!RngLaws} it idx w b it' w' :
  index_ok it ->
  getitem it idx w = inr ((b, it'), w') ->
  length (batch_indices b) = min (batch_size it) (n_samples it - batch_size it * idx) /\
  length (batch_x b) = length (batch_indices b) /\
  length (batch_y b) = length (batch_indices b) /\
  0 < length (batch_indices b).
Proof.
  intros Hok Hget.
  apply getitem_inv in Hget as (Hbs & Hidx & ia & xys & Hia & _ & -> & Hxys).
  assert (Hperm : ia ≡ₚ seq 0 (n_samples it)).
  { destruct (index_array it) as [ia0 |] eqn:Harr.
    - subst ia0. exact (Hok ia Harr).
    - destruct Hia as (w0 & w1 & Hset).
      exact (set_index_array_permutes _ _ _ _ Hset). }
  assert (Hlen : length ia = n_samples it) by (rewrite Hperm; apply length_seq).
  pose proof (Forall2_length _ _ _ Hxys) as Hxys_len.
  pose proof (batch_start_in_range (n_samples it) (batch_size it) idx Hbs Hidx).
  cbn [batch_indices batch_x batch_y]. rewrite !length_fmap, <- Hxys_len.
  unfold batch_slice. rewrite length_take, length_drop, Hlen. lia.
Qed.

Lemma getitem_beyond it idx w :
  batch_size it <> 0 -> iterator_len it <= idx ->
  getitem it idx w =
  inl (ValueError "Asked to retrieve an element beyond the length of the Sequence.").
Proof.
  intros Hbs Hidx. unfold getitem.
  destruct (Nat.eqb_spec (batch_size it) 0) as [| _]; [contradiction |].
  destruct (Nat.ltb_spec idx (iterator_len it)); [lia | reflexivity].
Qed.

(** What batches an iterator of batch size [bs] hands out. *)
Definition batches_bounded (bs : nat) (it : DirectoryIterator) : Prop :=
  iterator_len it = (n_samples it + bs - 1) / bs /\
  forall seen ia idx w,
    index_ok (with_index_state it seen ia) ->
    (iterator_len it <= idx ->
     getitem (with_index_state it seen ia) idx w =
     inl (ValueError "Asked to retrieve an element beyond the length of the Sequence.")) /\
    (idx < iterator_len it ->
     exists b it' w',
       getitem (with_index_state it seen ia) idx w = inr ((b, it'), w') /\
       length (batch_x b) = min bs (n_samples it - bs * idx) /\
       length (batch_y b) = length (batch_x b) /\
       0 < length (batch_x b) <= bs).

Lemma iterator_over_bounded `{!RngLaws} env a dir bs subdirs it :
  bs <> 0 -> iterator_over env a dir bs subdirs it -> batches_bounded bs it.
Proof.
  intros Hbs Hover.
  pose proof Hover as (_ & Hgen & _ & _ & _ & Hsize & _).
  split; [unfold iterator_len; rewrite Hsize; reflexivity |].
  intros seen ia idx w Hok.
  set (it1 := with_index_state it seen ia).
  assert (Hbs1 : batch_size it1 <> 0) by (simpl; rewrite Hsize; exact Hbs).
  split.
  - intros Hidx. apply getitem_beyond; [exact Hbs1 | exact Hidx].
  - intros Hidx.
    destruct (getitem_total it1 a idx w) as (b & it' & w' & Hget); auto.
    exists b, it', w'. split; [exact Hget |].
    destruct (getitem_batch_length _ _ _ _ _ _ Hok Hget) as (Hl & Hx & Hy & Hpos).
    change (batch_size (with_index_state it seen ia)) with (batch_size it) in Hl.
    change (n_samples (with_index_state it seen ia)) with (n_samples it) in Hl.
    rewrite Hsize in Hl. rewrite Hx, Hy, Hl. split; [reflexivity |].
    split; [reflexivity |]. rewrite Hl in Hpos. lia.
Qed.

(** X5: the training generator hands out batches 0 to ceil(n/12) - 1 and
    raises [ValueError] for any other index; every batch holds 12 pictures
    with their 12 labels, except that the last holds what is left; no batch
    is empty.  The validation generator does the same by 20. *)
Theorem batches_hold_at_most_the_batch_size `{!RngLaws} (env : Env) (a : Arch)
    (w1 w1' w2 w2' : World) (tg vg : DirectoryIterator) :
  train_generator env a w1 = inr (tg, w1') ->
  validation_generator env a w2 = inr (vg, w2') ->
  batches_bounded 12 tg /\ batches_bounded 20 vg.
Proof.
  intros Htrain Hval.
  apply flow_from_directory_over in Htrain as (st & Ht & _).
  apply flow_from_directory_over in Hval as (sv & Hv & _).
  split; eapply iterator_over_bounded; eauto.
Qed.

(** Every label of the batches an iterator hands out is the indicator
    vector of one class. *)
Definition labels_one_hot (it : DirectoryIterator) : Prop :=
  forall seen ia idx w b it' w' y,
    getitem (with_index_state it seen ia) idx w = inr ((b, it'), w') ->
    y ∈ batch_y b ->
    exists c,
      c < length (class_names it) /\
      length y = length (class_names it) /\
      y !! c = Some 1 /\
      (forall k, k < length (class_names it) -> k <> c -> y !! k = Some 0) /\
      sum_list y = 1.

Lemma iterator_over_labels env a dir bs subdirs it :
  iterator_over env a dir bs subdirs it -> labels_one_hot it.
Proof.
  intros Hover seen ia idx w b it' w' y Hget Hy.
  pose proof Hover as (_ & _ & _ & _ & _ & _ & _ & _ & Hnames & _).
  pose proof (getitem_batch_from_directory env a dir bs subdirs _ idx w b it' w'
                (iterator_over_state _ _ _ _ _ _ seen ia Hover) Hget)
    as (Hlx & Hly & Hbatch).
  apply list_elem_of_lookup in Hy as (k & Hk).
  destruct (lookup_lt_is_Some_2 (batch_x b) k) as (x & Hx).
  { rewrite Hlx, <- Hly. exact (lookup_lt_Some _ _ _ Hk). }
  destruct (Hbatch k x y Hx Hk) as (c & cls & files & f & coin & Hsub & _ & _ & ->).
  pose proof (lookup_lt_Some _ _ _ Hsub) as Hc.
  rewrite Hnames, length_fmap. exists c.
  split; [exact Hc |]. split; [unfold one_hot; rewrite length_fmap, length_seq; reflexivity |].
  split; [rewrite one_hot_lookup, Nat.eqb_refl by exact Hc; reflexivity |].
  split; [| exact (one_hot_sum _ _ Hc)].
  intros k0 Hk0 Hne. rewrite one_hot_lookup by exact Hk0.
  destruct (Nat.eqb_spec k0 c); [contradiction | reflexivity].
Qed.


(** The notebook's generator decides the flip of a picture by the first
    number it draws from NumPy's generator for it. *)
Lemma notebook_flip_coin a w :
  exists w',
    get_random_transform (data_generator a) w =
    inr ({| theta := None; tx := None; ty := None; shear := None; zoom := None;
            flip_horizontal := (np_random_lt_half (np_random w)).1;
            flip_vertical := false;
            channel_shift_intensity := None; brightness := None |}, w').
Proof.
  unfold get_random_transform, data_generator. cbn.
  assert (Hzero : is_zero 0 = true) by reflexivity.
  unfold uniform_if. rewrite Hzero.
  unfold mbind, M_bind, mret, M_ret. rewrite !np_draw_run.
  rewrite andb_true_r, andb_false_r. eexists. reflexivity.
Qed.

(** The validation pictures pass through the same generator object: they
    are flipped at random as the training pictures are. *)
Definition flips_by_the_coin (a : Arch) (it : DirectoryIterator) : Prop :=
  forall seen ia j path c w,
    samples it !! j = Some (path, c) ->
    exists w',
      transformed_sample (with_index_state it seen ia) j w =
      inr ((preprocess_input a
              (if (np_random_lt_half (np_random w)).1
               then flip_axis img_col_axis (load_img path (224, 224))
               else load_img path (224, 224)),
            one_hot (length (class_names it)) c), w').

Lemma iterator_over_flips env a dir bs subdirs it :
  iterator_over env a dir bs subdirs it -> flips_by_the_coin a it.
Proof.
  intros (_ & Hgen & _ & Hsize & Hmode & _) seen ia j path c w Hsample.
  unfold transformed_sample. cbn [samples with_index_state image_data_generator
                                   target_size].
  rewrite Hsample, Hgen, Hsize.
  destruct (notebook_flip_coin a w) as (w' & Hparams).
  exists w'. rewrite (bind_run _ _ _ _ _ Hparams).
  unfold mret, M_ret, apply_transform, standardize, label_of. cbn.
  rewrite Hmode. reflexivity.
Qed.

(** X14: validation pictures are augmented like training pictures: the
    validation generator is made from the same [data_generator], so each of
    its pictures is flipped left to right exactly when the coin drawn for it
    from NumPy's generator says so, before [preprocess_input]. *)
Theorem validation_pictures_are_flipped_too (env : Env) (a : Arch)
    (w1 w1' w2 w2' : World) (tg vg : DirectoryIterator) :
  train_generator env a w1 = inr (tg, w1') ->
  validation_generator env a w2 = inr (vg, w2') ->
  image_data_generator vg = image_data_generator tg /\
  horizontal_flip (image_data_generator vg) = true /\
  flips_by_the_coin a tg /\ flips_by_the_coin a vg.
Proof.
  intros Htrain Hval.
  apply flow_from_directory_over in Htrain as (st & Ht & _).
  apply flow_from_directory_over in Hval as (sv & Hv & _).
  pose proof Ht as (_ & Hgt & _). pose proof Hv as (_ & Hgv & _).
  split; [congruence |]. split; [rewrite Hgv; reflexivity |].
  split; eapply iterator_over_flips; eauto.
Qed.

End Generators.

(** ** The epoch, whatever the number of pictures *)

Section Epoch.
Context `{Backend}.

Lemma slices_length {A : Type} (l : list A) bs (order : list nat) :
  length (mjoin ((fun idx => take bs (drop (bs * idx) l)) <$> order))
  <= bs * length order.
Proof.
  induction order as [| idx order IH]; csimpl; [lia |].
  rewrite length_app, length_take, Nat.mul_succ_r. lia.
Qed.

Lemma batches_needed (n : nat) : n <= 12 * ((n + 12 - 1) / 12).
Proof.
  pose proof (Nat.mul_succ_div_gt (n + 12 - 1) 12 ltac:(lia)). lia.
Qed.

(** What one epoch of the fit cell takes from the [n] training and the [nv]
    validation pictures. *)
Definition epoch_takes_no_picture_twice (n nv : nat) (st : FitState) : Prop :=
  exists batches vb,
    trace st = (TrainStep <$> batches) ++ [TestStep vb] /\
    NoDup (mjoin batches) /\
    (forall j, j ∈ mjoin batches -> j < n) /\
    length (mjoin batches) <= 72 /\
    (n <= 72 -> mjoin batches ≡ₚ seq 0 n) /\
    NoDup vb /\
    (forall j, j ∈ vb -> j < nv) /\
    length vb = min 20 nv /\
    (nv <= 20 -> vb ≡ₚ seq 0 nv).


(** X10: a model that comes from a constructor has not been compiled, and
    [fit] on it raises before it reads any data: the compile cell has to run
    between the constructor and the fit cell. *)
Theorem fit_before_compile_raises (env : Env) (m : Sequential)
    (tg vg : DirectoryIterator) (w : World) :
  built_by_notebook env m ->
  compiled m = None /\
  fit_cell m tg vg w =
    inl (RuntimeError "You must compile your model before training/testing.").
Proof.
  intros Hm. apply built_by_notebook_inv in Hm
    as (a & wts & vars & kernel & -> & _).
  split; reflexivity.
Qed.

(** X12: on an empty training directory the fit cell raises [ValueError]
    when it reads batch 0, before any training step. *)
Theorem fit_on_no_training_pictures_raises
    (env : Env) (a : Arch) (m_c : Sequential) (tg vg : DirectoryIterator)
    (w : World) :
  cells_ran env a m_c tg vg ->
  n_samples tg = 0 ->
  iterator_len tg = 0 /\
  fit_cell m_c tg vg w =
    inl (ValueError "Asked to retrieve an element beyond the length of the Sequence.").
Proof.
  intros Hcells Hnt.
  pose proof (cells_ran_inv _ _ _ _ _ Hcells) as (_ & Hcfg & (st_t & Ht) & _).
  pose proof Ht as (_ & _ & _ & _ & _ & Hbt & _).
  assert (Hlen : iterator_len tg = 0).
  { unfold iterator_len. rewrite Hbt, Hnt. reflexivity. }
  split; [exact Hlen |].
  unfold fit_cell, fit. rewrite Hcfg. unfold mbind, M_bind.
  rewrite getitem_beyond; [reflexivity | rewrite Hbt; discriminate | lia].
Qed.


End Epoch.

(** ** When the constructors return *)

Section Weights.
Context `{Backend}.

Definition weights_argument_error : exn :=
  ValueError
    "The `weights` argument should be either `None`, `imagenet`, or the path to the weights file to be loaded.".

Definition weights_count_error : exn :=
  ValueError "Layer count mismatch when loading weights from file.".

(** The ResNet50 weight file is there and stores one array per variable of
    the network. *)
Definition resnet_weights_usable (env : Env) : Prop :=
  exists arrays,
    h5_files env !! resnet_weights_path = Some arrays /\
    length arrays = length (application_variables ResNet50 false).

(** The ImageNet arrays of Xception are one per variable of the network. *)
Definition xception_weights_usable : Prop :=
  length (imagenet_weights Xception false)
  = length (application_variables Xception false).

Lemma init_variables_total (specs : list (list N * bool)) w :
  exists fresh w',
    mapM init_variable specs w = inr (fresh, w') /\ length fresh = length specs.
Proof.
  revert w. induction specs as [| sv specs IH]; intros w.
  - eexists _, _. split; reflexivity.
  - assert (Hinit : exists v w1, init_variable sv w = inr (v, w1)).
    { unfold init_variable, tf_initializer, mbind, M_bind, mret, M_ret.
      destruct (random_init (tf_random w) sv.1). eauto. }
    destruct Hinit as (v & w1 & Hv).
    destruct (IH w1) as (fresh & w2 & Hfresh & Hlen).
    exists (v :: fresh), w2. simpl.
    rewrite (bind_run _ _ _ _ _ Hv), (bind_run _ _ _ _ _ Hfresh).
    split; [reflexivity | simpl; congruence].
Qed.

Lemma load_weights_result (stored : list tensor) (fresh : list Variable_) w :
  load_weights stored fresh w =
  if Nat.eqb (length stored) (length fresh)
  then inr (zip_with set_value fresh stored, w)
  else inl weights_count_error.
Proof. unfold load_weights. destruct (Nat.eqb _ _); reflexivity. Qed.

(** An application given stored arrays returns exactly when there is one
    array per variable. *)
Lemma application_with_arrays env a top pool wts arrays w :
  match wts with
  | weights_None => False
  | weights_imagenet => arrays = imagenet_weights a top
  | weights_path p => h5_files env !! p = Some arrays
  end ->
  if Nat.eqb (length arrays) (length (application_variables a top))
  then exists l w', application env a top pool wts w = inr (l, w') /\
                    config l = Application a top pool wts
  else application env a top pool wts w = inl weights_count_error.
Proof.
  intros Hstored. unfold application.
  assert (Hfirst :
    match wts with
    | weights_None => mret None
    | weights_imagenet => mret (Some (imagenet_weights a top))
    | weights_path p =>
        match h5_files env !! p with
        | Some arrays => mret (Some arrays)
        | None => raise weights_argument_error
        end
    end w = inr (Some arrays, w)).
  { destruct wts as [| | p]; [contradiction | subst; reflexivity |].
    rewrite Hstored. reflexivity. }
  unfold weights_argument_error in Hfirst.
  rewrite (bind_run _ _ _ _ _ Hfirst).
  destruct (init_variables_total (application_variables a top) w)
    as (fresh & w1 & Hfresh & Hlen).
  rewrite (bind_run _ _ _ _ _ Hfresh). unfold mbind, M_bind.
  rewrite load_weights_result, Hlen.
  destruct (Nat.eqb _ _); [| reflexivity].
  eexists _, _. split; reflexivity.
Qed.

Lemma application_without_file env a top pool p w :
  h5_files env !! p = None ->
  application env a top pool (weights_path p) w = inl weights_argument_error.
Proof.
  intros Hnone. unfold application, mbind, M_bind. rewrite Hnone. reflexivity.
Qed.

(** The rest of a constructor, after the backbone is there, never raises. *)
Lemma head_on_backbone_total a wts l w :
  config l = Application a false (Some avg) wts ->
  exists m w',
    (m1 ← add sequential l;
     m2 ← add m1 (dense num_classes softmax);
     m3 ← set_trainable 0 false m2;
     mret m3) w = inr (m, w').
Proof.
  intros Hcfg.
  assert (Hadd1 : add sequential l w = inr (with_layers sequential [l], w)).
  { unfold add. rewrite Hcfg. reflexivity. }
  rewrite (bind_run _ _ _ _ _ Hadd1).
  assert (Hshape : output_shape (with_layers sequential [l])
                   = Some [None; Some 2048%N]).
  { unfold output_shape. simpl. unfold layer_output_shape. rewrite Hcfg.
    destruct a; reflexivity. }
  unfold add at 1. cbn [config dense]. rewrite Hshape. cbn [last].
  unfold build_dense, tf_initializer, mbind, M_bind, mret, M_ret.
  destruct (glorot_uniform (tf_random w) [2048%N; num_classes]) as [kernel r].
  eexists _, _. reflexivity.
Qed.

Lemma constructor_runs env a wts w :
  (backbone ← application env a false (Some avg) wts;
   m1 ← add sequential backbone;
   m2 ← add m1 (dense num_classes softmax);
   m3 ← set_trainable 0 false m2;
   mret m3) w
  = match application env a false (Some avg) wts w with
    | inl e => inl e
    | inr (backbone, w1) =>
        (m1 ← add sequential backbone;
         m2 ← add m1 (dense num_classes softmax);
         m3 ← set_trainable 0 false m2;
         mret m3) w1
    end.
Proof. reflexivity. Qed.

Lemma create_model_from_resnet_result env w :
  match h5_files env !! resnet_weights_path with
  | None => create_model_from_resnet env w = inl weights_argument_error
  | Some arrays =>
      if Nat.eqb (length arrays) (length (application_variables ResNet50 false))
      then exists m w', create_model_from_resnet env w = inr (m, w')
      else create_model_from_resnet env w = inl weights_count_error
  end.
Proof.
  unfold create_model_from_resnet. cbn zeta. rewrite constructor_runs.
  destruct (h5_files env !! resnet_weights_path) as [arrays |] eqn:Hfile.
  - pose proof (application_with_arrays env ResNet50 false (Some avg)
                  (weights_path resnet_weights_path) arrays w Hfile) as Happ.
    destruct (Nat.eqb _ _).
    + destruct Happ as (l & w1 & -> & Hcfg).
      exact (head_on_backbone_total _ _ _ _ Hcfg).
    + rewrite Happ. reflexivity.
  - rewrite application_without_file by exact Hfile. reflexivity.
Qed.

Lemma create_model_from_xception_result env w :
  if Nat.eqb (length (imagenet_weights Xception false))
             (length (application_variables Xception false))
  then exists m w', create_model_from_xception env w = inr (m, w')
  else create_model_from_xception env w = inl weights_count_error.
Proof.
  unfold create_model_from_xception. cbn zeta. rewrite constructor_runs.
  pose proof (application_with_arrays env Xception false (Some avg)
                weights_imagenet _ w eq_refl) as Happ.
  destruct (Nat.eqb _ _).
  - destruct Happ as (l & w1 & -> & Hcfg).
    exact (head_on_backbone_total _ _ _ _ Hcfg).
  - rewrite Happ. reflexivity.
Qed.

Lemma resnet_returns_iff env w :
  (exists m w', create_model_from_resnet env w = inr (m, w'))
  <-> resnet_weights_usable env.
Proof.
  pose proof (create_model_from_resnet_result env w) as Hres.
  unfold resnet_weights_usable.
  destruct (h5_files env !! resnet_weights_path) as [arrays |].
  - destruct (Nat.eqb_spec (length arrays)
                (length (application_variables ResNet50 false))) as [Hlen | Hlen].
    + split; [eauto | intros _; exact Hres].
    + split.
      * intros (m & w' & Heq). rewrite Hres in Heq. discriminate.
      * intros (arrays' & [= <-] & Hlen'). contradiction.
  - split.
    + intros (m & w' & Heq). rewrite Hres in Heq. discriminate.
    + intros (arrays & [=] & _).
Qed.

Lemma xception_returns_iff env w :
  (exists m w', create_model_from_xception env w = inr (m, w'))
  <-> xception_weights_usable.
Proof.
  pose proof (create_model_from_xception_result env w) as Hres.
  unfold xception_weights_usable.
  destruct (Nat.eqb_spec (length (imagenet_weights Xception false))
              (length (application_variables Xception false))) as [Hlen | Hlen].
  - split; [auto | intros _; exact Hres].
  - split; [| contradiction].
    intros (m & w' & Heq). rewrite Hres in Heq. discriminate.
Qed.


End Weights.

(** ** How the cells compose *)

Section Pipelines.
Context `{Backend}.

Definition create_model (env : Env) (a : Arch) : M Sequential :=
  match a with
  | ResNet50 => create_model_from_resnet env
  | Xception => create_model_from_xception env
  end.

(** The cells of a pipeline in the order of the first pipeline: model,
    summary, compile, generators, fit. *)
Definition pipeline_model_first (env : Env) (a : Arch) : M Outcome :=
  my_new_model ← create_model env a;
  let printed := summary my_new_model in
  my_new_model ← compile_cell my_new_model;
  train ← train_generator env a;
  validation ← validation_generator env a;
  st ← fit_cell my_new_model train validation;
  mret (mkOutcome printed st).

(** The same cells in the order of the second pipeline: generators, model,
    summary, compile, fit. *)
Definition pipeline_generators_first (env : Env) (a : Arch) : M Outcome :=
  train ← train_generator env a;
  validation ← validation_generator env a;
  my_new_model ← create_model env a;
  let printed := summary my_new_model in
  my_new_model ← compile_cell my_new_model;
  st ← fit_cell my_new_model train validation;
  mret (mkOutcome printed st).

(** A generator cell does not look at the pseudo-random generators: it
    raises in every world or returns the same iterator in every world,
    leaving the world as it is. *)
Lemma generator_cell_constant env g dir size bs mode :
  (exists e, forall w, flow_from_directory env g dir size bs mode w = inl e) \/
  (exists it, forall w, flow_from_directory env g dir size bs mode w = inr (it, w)).
Proof.
  unfold flow_from_directory. destruct (directories env !! dir).
  - right. eexists. intros w. reflexivity.
  - left. eexists. intros w. reflexivity.
Qed.

Lemma compile_cell_run (m : Sequential) (w : World) :
  compile_cell m w =
  inr (mkSequential (layers m)
         (Some (mkCompiled (SGD (1 # 100)) "categorical_crossentropy" ["accuracy"])),
       w).
Proof. reflexivity. Qed.

Lemma cell_order_is_immaterial env a w r :
  pipeline_model_first env a w = inr r <->
  pipeline_generators_first env a w = inr r.
Proof.
  unfold pipeline_model_first, pipeline_generators_first,
    train_generator, validation_generator.
  destruct (generator_cell_constant env (data_generator a) train_directory
              (image_size, image_size) 12 categorical) as [[e Ht] | [tg Ht]];
  destruct (generator_cell_constant env (data_generator a) val_directory
              (image_size, image_size) 20 categorical) as [[e' Hv] | [vg Hv]];
  unfold mbind, M_bind; rewrite ?Ht, ?Hv;
  destruct (create_model env a w) as [e0 | [m w1]];
  rewrite ?compile_cell_run, ?Ht, ?Hv;
  try reflexivity; split; discriminate.
Qed.

(** X8: the first pipeline makes its model before its generators, the
    second its generators before its model.  The order is immaterial: for
    either architecture, when the cells run in one order return an outcome,
    run in the other order they return the same outcome and leave the
    pseudo-random generators in the same states. *)
Theorem cell_order_does_not_change_the_outcome (env : Env) (a : Arch)
    (w : World) (r : Outcome * World) :
  resnet_pipeline env = pipeline_model_first env ResNet50 /\
  xception_pipeline env = pipeline_generators_first env Xception /\
  (pipeline_model_first env a w = inr r <->
   pipeline_generators_first env a w = inr r).
Proof.
  split; [reflexivity |]. split; [reflexivity |]. apply cell_order_is_immaterial.
Qed.

(** Directory [dir] is there and holds at least one picture. *)
Definition pictures_under (env : Env) (dir : string) : Prop :=
  exists subdirs,
    directories env !! dir = Some subdirs /\
    0 < sum_list ((fun sub => length sub.2) <$> subdirs).

(** All the notebook reads is in place. *)
Definition environment_ready (env : Env) : Prop :=
  resnet_weights_usable env /\ xception_weights_usable /\
  pictures_under env train_directory /\ pictures_under env val_directory.

Definition weights_usable (env : Env) (a : Arch) : Prop :=
  match a with
  | ResNet50 => resnet_weights_usable env
  | Xception => xception_weights_usable
  end.

Lemma create_model_returns_iff env a w :
  (exists m w', create_model env a w = inr (m, w')) <-> weights_usable env a.
Proof. destruct a; [apply resnet_returns_iff | apply xception_returns_iff]. Qed.

Lemma create_model_built env a w m w' :
  create_model env a w = inr (m, w') -> built_by_notebook env m.
Proof. intros Hm. exists w, w'. destruct a; auto. Qed.

Lemma iterator_len_zero it :
  batch_size it <> 0 -> n_samples it = 0 -> iterator_len it = 0.
Proof.
  intros Hbs Hn. unfold iterator_len. rewrite Hn. apply Nat.div_small. lia.
Qed.

Lemma getitem_needs_pictures it idx w r :
  getitem it idx w = inr r -> 0 < n_samples it.
Proof.
  destruct r as [[b it'] w']. intros Hget.
  apply getitem_inv in Hget as (Hbs & Hidx & _).
  destruct (n_samples it) eqn:Hn; [| lia].
  rewrite (iterator_len_zero it Hbs Hn) in Hidx. lia.
Qed.

Lemma fit_cell_needs_pictures cfg m tg vg w st w' :
  compiled m = Some cfg ->
  fit_cell m tg vg w = inr (st, w') ->
  0 < n_samples tg /\ 0 < n_samples vg.
Proof.
  intros Hcfg Hrun. unfold fit_cell, fit in Hrun. rewrite Hcfg in Hrun.
  apply bind_inr in Hrun as ([b0 x1] & w1 & Hpeek & Hrun).
  split; [exact (getitem_needs_pictures _ _ _ _ Hpeek) |].
  simpl in Hrun.
  apply bind_inr in Hrun as (order & w2 & _ & Hrun).
  apply bind_inr in Hrun as (r & w3 & _ & Hrun).
  destruct (run_logs r); [destruct (raise_inr _ _ _ Hrun) |].
  apply bind_inr in Hrun as ([[val val_logs] val_trace] & w4 & Hval & _).
  apply bind_inr in Hval as (v1 & w5 & Hv1 & _).
  apply bind_inr in Hv1 as ([bv v1'] & w6 & Hpeekv & _).
  exact (getitem_needs_pictures _ _ _ _ Hpeekv).
Qed.

Lemma generator_found env a dir bs w it w' :
  flow_from_directory env (data_generator a) dir (image_size, image_size) bs
    categorical w = inr (it, w') ->
  exists subdirs,
    directories env !! dir = Some subdirs /\
    n_samples it = sum_list ((fun sub => length sub.2) <$> subdirs).
Proof.
  intros Hrun.
  pose proof (flow_from_directory_found env (data_generator a) dir
                (image_size, image_size) bs categorical w) as Hfound.
  destruct (directories env !! dir) as [subdirs |].
  - destruct Hfound as (it0 & Heq & Hn & _). rewrite Heq in Hrun.
    injection Hrun as <- _. eauto.
  - rewrite Hfound in Hrun. discriminate.
Qed.

Lemma pipeline_model_first_total `{!RngLaws} env a w :
  weights_usable env a ->
  pictures_under env train_directory -> pictures_under env val_directory ->
  exists out w', pipeline_model_first env a w = inr (out, w').
Proof.
  intros Hweights (st & Hdt & Hnt) (sv & Hdv & Hnv).
  apply (create_model_returns_iff env a w) in Hweights as (m & w1 & Hm).
  pose proof (create_model_built _ _ _ _ _ Hm) as Hbuilt.
  unfold pipeline_model_first.
  rewrite (bind_run _ _ _ _ _ Hm). cbn zeta.
  rewrite (bind_run _ _ _ _ _ (compile_cell_run m w1)).
  set (m_c := mkSequential (layers m) _).
  pose proof (flow_from_directory_found env (data_generator a) train_directory
                (image_size, image_size) 12 categorical w1) as Ht.
  rewrite Hdt in Ht. destruct Ht as (tg & Htg & Hnt' & _).
  pose proof (flow_from_directory_found env (data_generator a) val_directory
                (image_size, image_size) 20 categorical w1) as Hv.
  rewrite Hdv in Hv. destruct Hv as (vg & Hvg & Hnv' & _).
  fold (train_generator env a) in Htg. fold (validation_generator env a) in Hvg.
  rewrite (bind_run _ _ _ _ _ Htg), (bind_run _ _ _ _ _ Hvg).
  assert (Hcells : cells_ran env a m_c tg vg).
  { split; [exists m, w1, w1; split; [exact Hbuilt | apply compile_cell_run] |].
    split; eauto. }
  destruct (fit_cell_one_epoch env a m_c tg vg w1 Hcells)
    as (fs & w2 & _ & _ & _ & Hfit & _); [lia | lia |].
  rewrite (bind_run _ _ _ _ _ Hfit). eexists _, _. reflexivity.
Qed.

Lemma pipeline_model_first_needs env a w out w' :
  pipeline_model_first env a w = inr (out, w') ->
  weights_usable env a /\
  pictures_under env train_directory /\ pictures_under env val_directory.
Proof.
  unfold pipeline_model_first. intros Hrun.
  apply bind_inr in Hrun as (m & w1 & Hm & Hrun). cbn zeta in Hrun.
  apply bind_inr in Hrun as (m_c & w2 & Hc & Hrun).
  apply bind_inr in Hrun as (tg & w3 & Ht & Hrun).
  apply bind_inr in Hrun as (vg & w4 & Hv & Hrun).
  apply bind_inr in Hrun as (fs & w5 & Hfit & _).
  apply compile_layers in Hc as (_ & opt & _ & Hcfg).
  destruct (fit_cell_needs_pictures _ _ _ _ _ _ _ Hcfg Hfit) as (Hnt & Hnv).
  apply generator_found in Ht as (st & Hdt & Hst).
  apply generator_found in Hv as (sv & Hdv & Hsv).
  split; [apply (create_model_returns_iff env a w); eauto |].
  split; [exists st | exists sv]; split; auto; lia.
Qed.


(** What a pipeline for architecture [a] leaves behind, [stored] being the
    pretrained arrays its backbone was given. *)
Definition pipeline_outcome (a : Arch) (wts : WeightsArg) (stored : list tensor)
    (out : Outcome) : Prop :=
  (exists n, printed_summary out = mkSummary (n + 4098) 4098 n) /\
  summary (fit_model (fitted out)) = printed_summary out /\
  compiled (fit_model (fitted out)) =
    Some (mkCompiled (SGD (1 # 100)) "categorical_crossentropy" ["accuracy"]) /\
  (exists backbone head,
      layers (fit_model (fitted out)) = [backbone; head] /\
      config backbone = Application a false (Some avg) wts /\
      trainable backbone = false /\
      var_value <$> variables backbone = stored /\
      config head = Dense 2 softmax) /\
  (fun logs => logs.*1) <$> history (fitted out) =
    [["loss"; "accuracy"; "val_loss"; "val_accuracy"]].

Lemma summary_of_layers (m m' : Sequential) :
  layers m' = layers m -> summary m' = summary m.
Proof. unfold summary. intros ->. reflexivity. Qed.

Lemma pipeline_outcome_of_cells env a wts vars kernel m_c tg vg w w1 w2 st w' :
  built_by_notebook env (transfer_model a wts vars kernel (zeros [2%N])) ->
  compile_cell (transfer_model a wts vars kernel (zeros [2%N])) w1 = inr (m_c, w2) ->
  fit_cell m_c tg vg w = inr (st, w') ->
  pipeline_outcome a wts (var_value <$> vars)
    (mkOutcome (summary (transfer_model a wts vars kernel (zeros [2%N]))) st).
Proof.
  intros Hbuilt Hcompile Hfit.
  pose proof (compile_layers _ _ _ _ _ _ _ Hcompile) as (Hlayers & opt & Hopt & Hcfg).
  injection Hopt as <-.
  destruct (fit_same_architecture _ _ _ _ _ _ _ _ _ _ Hfit) as (_ & Hsum & Hcomp).
  destruct (training_head_only_aux env _ Hbuilt) as [_ Htrain].
  destruct (Htrain _ _ _ _ _ _ Hcompile) as [_ Hfitted].
  destruct (Hfitted _ _ _ _ _ _ _ _ _ Hfit)
    as [(backbone & head & head' & Hm & Hm' & Hfrozen & Hhead & _) _].
  injection Hm as <- <-.
  pose proof (fit_cell_inv _ _ _ _ _ _ _ Hcfg Hfit)
    as (ia & iav & order & ordv & _ & _ & _ & _ & _ & _ & _ & Hkeys).
  unfold pipeline_outcome. cbn [printed_summary fitted].
  split; [rewrite transfer_model_summary; eauto |].
  split; [rewrite Hsum; apply summary_of_layers; exact Hlayers |].
  split; [rewrite Hcomp; exact Hcfg |].
  split; [| exact Hkeys].
  eexists _, _. split; [exact Hm' |]. auto.
Qed.

Lemma resnet_pipeline_outcome env w out w' :
  resnet_pipeline env w = inr (out, w') ->
  exists arrays,
    h5_files env !! resnet_weights_path = Some arrays /\
    pipeline_outcome ResNet50 (weights_path resnet_weights_path) arrays out.
Proof.
  unfold resnet_pipeline. intros Hrun.
  apply bind_inr in Hrun as (m & w1 & Hm & Hrun). cbn zeta in Hrun.
  apply bind_inr in Hrun as (m_c & w2 & Hc & Hrun).
  apply bind_inr in Hrun as (tg & w3 & _ & Hrun).
  apply bind_inr in Hrun as (vg & w4 & _ & Hrun).
  apply bind_inr in Hrun as (st & w5 & Hfit & Hrun).
  apply ret_inr in Hrun as [<- _].
  assert (Hbuilt : built_by_notebook env m) by (exists w, w1; auto).
  apply create_model_from_resnet_inv in Hm as (vars & kernel & -> & Hfile).
  eexists. split; [exact Hfile |].
  exact (pipeline_outcome_of_cells _ _ _ _ _ _ _ _ _ _ _ _ _ Hbuilt Hc Hfit).
Qed.

Lemma xception_pipeline_outcome env w out w' :
  xception_pipeline env w = inr (out, w') ->
  pipeline_outcome Xception weights_imagenet (imagenet_weights Xception false) out.
Proof.
  unfold xception_pipeline. intros Hrun.
  apply bind_inr in Hrun as (tg & w1 & _ & Hrun).
  apply bind_inr in Hrun as (vg & w2 & _ & Hrun).
  apply bind_inr in Hrun as (m & w3 & Hm & Hrun). cbn zeta in Hrun.
  apply bind_inr in Hrun as (m_c & w4 & Hc & Hrun).
  apply bind_inr in Hrun as (st & w5 & Hfit & Hrun).
  apply ret_inr in Hrun as [<- _].
  assert (Hbuilt : built_by_notebook env m) by (exists w2, w3; auto).
  apply create_model_from_xception_inv in Hm as (vars & kernel & -> & Hzoo).
  rewrite <- Hzoo.
  exact (pipeline_outcome_of_cells _ _ _ _ _ _ _ _ _ _ _ _ _ Hbuilt Hc Hfit).
Qed.


End Pipelines.

(** ** Which generator each cell draws from *)

Section Draws.
Context `{Backend}.

(** A computation leaves [f] of the world as it found it. *)
Definition keeps {A B : Type} (f : World -> B) (m : M A) : Prop :=
  forall w a w', m w = inr (a, w') -> f w' = f w.

Lemma keeps_ret {A B : Type} (f : World -> B) (a : A) : keeps f (mret a).
Proof. intros w a' w' Hrun. apply ret_inr in Hrun as [_ <-]. reflexivity. Qed.

Lemma keeps_raise {A B : Type} (f : World -> B) (e : exn) : keeps f (@raise _ A e).
Proof. intros w a w' Hrun. destruct (raise_inr _ _ _ Hrun). Qed.

Lemma keeps_lift_exn {A B : Type} (f : World -> B) (r : exn + A) :
  keeps f (lift_exn r).
Proof. intros w a w' Hrun. apply lift_exn_inr in Hrun as [_ <-]. reflexivity. Qed.

Lemma keeps_bind {A B C : Type} (f : World -> C) (m : M A) (k : A -> M B) :
  keeps f m -> (forall a, keeps f (k a)) -> keeps f (m ≫= k).
Proof.
  intros Hm Hk w b w' Hrun. apply bind_inr in Hrun as (a & w1 & Ha & Hb).
  rewrite (Hk a _ _ _ Hb). exact (Hm _ _ _ Ha).
Qed.

Lemma keeps_mapM {A B C : Type} (f : World -> C) (g : A -> M B) (l : list A) :
  (forall a, keeps f (g a)) -> keeps f (mapM g l).
Proof.
  intros Hg. induction l as [| x l IH]; simpl.
  - apply keeps_ret.
  - apply keeps_bind; [apply Hg |]. intros y.
    apply keeps_bind; [exact IH |]. intros k. apply keeps_ret.
Qed.

(** The two generators the constructors leave alone. *)
Definition py_and_np (w : World) : rng * rng := (py_random w, np_random w).

Lemma tf_initializer_keeps init shape : keeps py_and_np (tf_initializer init shape).
Proof.
  intros w t w'. unfold tf_initializer. destruct (init (tf_random w) shape).
  intros [= _ <-]. reflexivity.
Qed.

Lemma np_draw_keeps_tf {A : Type} (draw : rng -> A * rng) :
  keeps tf_random (np_draw draw).
Proof.
  intros w a w'. rewrite np_draw_run. intros [= _ <-]. reflexivity.
Qed.

Lemma py_draw_keeps_tf {A : Type} (draw : rng -> A * rng) :
  keeps tf_random (py_draw draw).
Proof.
  intros w a w'. unfold py_draw. destruct (draw (py_random w)).
  intros [= _ <-]. reflexivity.
Qed.

Lemma np_random_seed_keeps_tf s : keeps tf_random (np_random_seed s).
Proof. intros w a w'. unfold np_random_seed. intros [= _ <-]. reflexivity. Qed.

(** Break a computation into its binds and branches. *)
Ltac keeps_steps :=
  repeat first
    [ apply keeps_ret
    | apply keeps_raise
    | apply keeps_lift_exn
    | apply tf_initializer_keeps
    | apply np_draw_keeps_tf
    | apply py_draw_keeps_tf
    | apply np_random_seed_keeps_tf
    | apply keeps_mapM; intros ?
    | apply keeps_bind; [| intros ?]
    | match goal with
      | |- keeps _ (match ?x with _ => _ end) => destruct x
      end ].

Lemma application_keeps env a top pool wts :
  keeps py_and_np (application env a top pool wts).
Proof.
  unfold application, init_variable, load_weights. keeps_steps.
Qed.

Lemma add_keeps m l : keeps py_and_np (add m l).
Proof. unfold add, build_dense. keeps_steps. Qed.

Lemma set_trainable_keeps i b m : keeps py_and_np (set_trainable i b m).
Proof. unfold set_trainable. keeps_steps. Qed.

Lemma constructor_keeps env a wts :
  keeps py_and_np
    (backbone ← application env a false (Some avg) wts;
     m1 ← add sequential backbone;
     m2 ← add m1 (dense num_classes softmax);
     m3 ← set_trainable 0 false m2;
     mret m3).
Proof.
  apply keeps_bind; [apply application_keeps | intros backbone].
  apply keeps_bind; [apply add_keeps | intros m1].
  apply keeps_bind; [apply add_keeps | intros m2].
  apply keeps_bind; [apply set_trainable_keeps | intros m3].
  apply keeps_ret.
Qed.

Lemma get_random_transform_keeps_tf g : keeps tf_random (get_random_transform g).
Proof. unfold get_random_transform, uniform_if. keeps_steps. Qed.

Lemma set_index_array_keeps_tf it : keeps tf_random (set_index_array it).
Proof. unfold set_index_array. keeps_steps. Qed.

Lemma transformed_sample_keeps_tf it j : keeps tf_random (transformed_sample it j).
Proof.
  unfold transformed_sample. destruct (samples it !! j) as [[path c] |];
    [| apply keeps_raise].
  apply keeps_bind; [apply get_random_transform_keeps_tf | intros params].
  apply keeps_ret.
Qed.

Lemma getitem_keeps_tf it idx : keeps tf_random (getitem it idx).
Proof.
  unfold getitem.
  destruct (Nat.eqb (batch_size it) 0); [apply keeps_raise |].
  destruct (negb (idx <? iterator_len it)); [apply keeps_raise |].
  apply keeps_bind.
  { destruct (seed_ it); [apply np_random_seed_keeps_tf | apply keeps_ret]. }
  intros u. apply keeps_bind.
  { destruct (index_array it); [apply keeps_ret | apply set_index_array_keeps_tf]. }
  intros ia. cbn zeta. apply keeps_bind.
  { apply keeps_mapM. intros j. apply transformed_sample_keeps_tf. }
  intros xys. apply keeps_ret.
Qed.

Lemma on_epoch_end_keeps_tf it : keeps tf_random (on_epoch_end it).
Proof.
  unfold on_epoch_end. apply keeps_bind; [apply set_index_array_keeps_tf |].
  intros ia. apply keeps_ret.
Qed.

Lemma run_steps_keeps_tf step ev order st :
  keeps tf_random (run_steps step ev order st).
Proof.
  revert st. induction order as [| idx order IH]; intros st; simpl.
  - apply keeps_ret.
  - apply keeps_bind; [apply getitem_keeps_tf | intros [b it]].
    apply keeps_bind; [apply keeps_lift_exn | intros [m logs]]. apply IH.
Qed.

Lemma epoch_order_keeps_tf it shuffled steps :
  keeps tf_random (epoch_order it shuffled steps).
Proof. unfold epoch_order. keeps_steps. Qed.

Lemma evaluate_keeps_tf cfg m val steps :
  keeps tf_random (evaluate cfg m val steps).
Proof.
  unfold evaluate.
  apply keeps_bind; [apply epoch_order_keeps_tf | intros order].
  apply keeps_bind; [apply run_steps_keeps_tf | intros r].
  destruct (run_logs r); [apply keeps_raise |].
  apply keeps_bind; [apply on_epoch_end_keeps_tf | intros val'].
  apply keeps_ret.
Qed.

Lemma fit_epochs_keeps_tf cfg shuffled steps vsteps epochs peeked st :
  keeps tf_random (fit_epochs cfg shuffled steps vsteps epochs peeked st).
Proof.
  revert peeked st. induction epochs as [| epochs IH]; intros peeked st; simpl.
  - apply keeps_ret.
  - apply keeps_bind; [apply epoch_order_keeps_tf | intros order].
    apply keeps_bind; [apply run_steps_keeps_tf | intros r].
    destruct (run_logs r); [apply keeps_raise |].
    apply keeps_bind.
    + destruct (fit_validation_data st) as [v |]; [| apply keeps_ret].
      apply keeps_bind.
      * destruct peeked; [apply keeps_ret |].
        apply keeps_bind; [apply getitem_keeps_tf | intros [bv v1]].
        apply keeps_ret.
      * intros v1. apply keeps_bind; [apply evaluate_keeps_tf | intros [rv logs]].
        apply keeps_ret.
    + intros [[val val_logs] val_trace].
      apply keeps_bind; [apply on_epoch_end_keeps_tf | intros x'].
      destruct (insufficient_data _ _); [apply keeps_ret | apply IH].
Qed.

Lemma fit_keeps_tf m x steps val vsteps epochs shuffled :
  keeps tf_random (fit m x steps val vsteps epochs shuffled).
Proof.
  unfold fit. destruct (compiled m); [| apply keeps_raise].
  apply keeps_bind; [apply getitem_keeps_tf | intros [b x1]].
  apply fit_epochs_keeps_tf.
Qed.


End Draws.

End Further.

(** * The further properties on the integer back end *)

Module FurtherDemo.
Import Keras Notebook IntBackend Facts Demo Further.

(** Environments with an empty directory, and one with 73 training
    pictures: seven batches, the last of one picture. *)
Definition env_no_training : Env := env_with 0 0 4 4.
Definition env_no_validation : Env := env_with 4 4 0 0.
Definition env_seventy_three : Env := env_with 37 36 10 10.

Lemma summary_counts_the_backbone_as_frozen_witness :
  exists m backbone head,
    built_by_notebook env_provided m /\
    layers m = [backbone; head] /\
    summary m = mkSummary (9536 + 4098) 4098 9536.
Proof.
  destruct (cells_before_fit env_provided ResNet50 world0)
    as [e | [[[[m m_c] tg] vg] w']] eqn:Hcells;
    [vm_compute in Hcells; discriminate |].
  destruct (cells_before_fit_ran _ _ _ _ _ _ _ _ Hcells) as (Hbuilt & _ & _).
  destruct (summary_counts_the_backbone_as_frozen env_provided m Hbuilt)
    as (backbone & head & Hlayers & Hsummary).
  exists m, backbone, head. split; [exact Hbuilt |]. split; [exact Hlayers |].
  apply Hsummary.
  vm_compute in Hcells. injection Hcells as <- <- <- <- <-.
  injection Hlayers as <- <-. reflexivity.
Defined.

Lemma fit_keeps_architecture_and_summary_witness :
  exists m_c tg vg st w',
    fit_cell m_c tg vg world0 = inr (st, w') /\
    same_architecture m_c (fit_model st) /\
    summary (fit_model st) = summary m_c /\
    compiled (fit_model st) = compiled m_c.
Proof.
  destruct (cells_before_fit env_provided Xception world0)
    as [e | [[[[m m_c] tg] vg] w']] eqn:Hcells;
    [vm_compute in Hcells; discriminate |].
  destruct (fit_cell m_c tg vg world0) as [e | [st w1]] eqn:Hfit.
  - vm_compute in Hcells. injection Hcells as <- <- <- <- <-.
    vm_compute in Hfit. discriminate.
  - exists m_c, tg, vg, st, w1. split; [exact Hfit |].
    exact (fit_keeps_architecture_and_summary _ _ _ _ _ _ _ _ _ _ Hfit).
Defined.

Lemma batches_hold_at_most_the_batch_size_witness :
  exists tg vg w1 w2,
    train_generator env_thirteen ResNet50 world0 = inr (tg, w1) /\
    validation_generator env_thirteen ResNet50 world0 = inr (vg, w2) /\
    batches_bounded 12 tg /\ batches_bounded 20 vg.
Proof.
  destruct (train_generator env_thirteen ResNet50 world0)
    as [e | [tg w1]] eqn:H1; [vm_compute in H1; discriminate |].
  destruct (validation_generator env_thirteen ResNet50 world0)
    as [e | [vg w2]] eqn:H2; [vm_compute in H2; discriminate |].
  exists tg, vg, w1, w2. split; [reflexivity |]. split; [reflexivity |].
  exact (batches_hold_at_most_the_batch_size env_thirteen ResNet50
           _ _ _ _ tg vg H1 H2).
Defined.


Lemma validation_pictures_are_flipped_too_witness :
  exists tg vg w1 w2,
    train_generator env_provided ResNet50 world0 = inr (tg, w1) /\
    validation_generator env_provided ResNet50 world0 = inr (vg, w2) /\
    flips_by_the_coin ResNet50 tg /\ flips_by_the_coin ResNet50 vg.
Proof.
  destruct (train_generator env_provided ResNet50 world0)
    as [e | [tg w1]] eqn:H1; [vm_compute in H1; discriminate |].
  destruct (validation_generator env_provided ResNet50 world0)
    as [e | [vg w2]] eqn:H2; [vm_compute in H2; discriminate |].
  exists tg, vg, w1, w2. split; [reflexivity |]. split; [reflexivity |].
  exact (proj2 (proj2 (validation_pictures_are_flipped_too env_provided ResNet50
                         _ _ _ _ tg vg H1 H2))).
Defined.


Lemma fit_before_compile_raises_witness :
  exists m tg vg,
    built_by_notebook env_provided m /\
    compiled m = None /\
    fit_cell m tg vg world0 =
      inl (RuntimeError "You must compile your model before training/testing.").
Proof.
  destruct (cells_before_fit env_provided ResNet50 world0)
    as [e | [[[[m m_c] tg] vg] w']] eqn:Hcells;
    [vm_compute in Hcells; discriminate |].
  destruct (cells_before_fit_ran _ _ _ _ _ _ _ _ Hcells) as (Hbuilt & _ & _).
  exists m, tg, vg. split; [exact Hbuilt |].
  exact (fit_before_compile_raises env_provided m tg vg world0 Hbuilt).
Defined.

Lemma fit_on_no_training_pictures_raises_witness :
  exists m_c tg vg,
    cells_ran env_no_training ResNet50 m_c tg vg /\
    n_samples tg = 0 /\
    fit_cell m_c tg vg world0 =
      inl (ValueError "Asked to retrieve an element beyond the length of the Sequence.").
Proof.
  destruct (cells_before_fit env_no_training ResNet50 world0)
    as [e | [[[[m m_c] tg] vg] w']] eqn:Hcells;
    [vm_compute in Hcells; discriminate |].
  destruct (cells_before_fit_ran _ _ _ _ _ _ _ _ Hcells) as (_ & _ & Hran).
  assert (Hnt : n_samples tg = 0).
  { vm_compute in Hcells. injection Hcells as <- <- <- <- <-. reflexivity. }
  exists m_c, tg, vg. split; [exact Hran |]. split; [exact Hnt |].
  exact (proj2 (fit_on_no_training_pictures_raises env_no_training ResNet50
                  m_c tg vg world0 Hran Hnt)).
Defined.


Lemma environment_provided_ready : environment_ready env_provided.
Proof.
  split; [| split; [| split]].
  - eexists. split; [vm_compute; reflexivity | reflexivity].
  - reflexivity.
  - eexists. split; [vm_compute; reflexivity |].
    apply Nat.ltb_lt. vm_compute. reflexivity.
  - eexists. split; [vm_compute; reflexivity |].
    apply Nat.ltb_lt. vm_compute. reflexivity.
Defined.



Lemma cell_order_does_not_change_the_outcome_witness :
  exists r,
    pipeline_model_first env_provided Xception world0 = inr r /\
    pipeline_generators_first env_provided Xception world0 = inr r.
Proof.
  destruct (pipeline_model_first env_provided Xception world0)
    as [e | r] eqn:Hrun; [vm_compute in Hrun; discriminate |].
  exists r. split; [reflexivity |].
  exact (proj1 (proj2 (proj2 (cell_order_does_not_change_the_outcome
                                env_provided Xception world0 r))) Hrun).
Defined.


(** With 73 training pictures the shuffle of the integer back end puts the
    one-picture batch among the six taken: 61 pictures are trained on, none
    twice. *)
Example seventy_three_pictures :
  match resnet_pipeline env_seventy_three world0 with
  | inr (out, _) =>
      (fun e => match e with
                | TrainStep b => length b
                | TestStep b => length b
                end) <$> trace (fitted out)
      = [1; 12; 12; 12; 12; 12; 20]
  | inl _ => False
  end.
Proof. vm_compute. reflexivity. Qed.

(** Without the weight file and without the train directory, the two orders
    of the cells both raise, each at the cell it reaches first. *)
Example both_orders_raise :
  let env := mkEnv ∅ ∅ in
  pipeline_model_first env ResNet50 world0 = inl weights_argument_error /\
  pipeline_generators_first env ResNet50 world0
  = inl (FileNotFoundError train_directory).
Proof. vm_compute. split; reflexivity. Qed.

End FurtherDemo.
